(** * arxiv-reader: local paper storage, conversion cache and part extraction

    A shallow embedding of
      - [source/utils/extractPartsFromResult.ts],
      - [source/services/local_papers.ts],
      - [source/services/docling.ts],
    followed by the properties of these three units. *)

From Stdlib Require Import NArith Ascii String List Lia.
From stdpp Require Import gmap strings list fin_maps.
From Equations Require Import Equations.

(** ** Part extraction ([source/utils/extractPartsFromResult.ts]) *)

Module ExtractParts.

(** A JavaScript string is a sequence of UTF-16 code units. *)
Definition jsstring := list N.

(** The code units of an ASCII literal. *)
Definition js (s : string) : jsstring :=
  map N_of_ascii (list_ascii_of_string s).
Arguments js _%_string.

(** [type ExtractedPart = TextPart | ImagePart] *)
Inductive ExtractedPart : Type :=
| TextPart (content : jsstring)
| ImagePart (data : jsstring).

(** What [.] refuses without the [s] flag: LF, CR, U+2028, U+2029. *)
Definition is_line_terminator (c : N) : bool :=
  (N.eqb c 10 || N.eqb c 13 || N.eqb c 8232 || N.eqb c 8233)%bool.

Definition rparen : N := 41.

(** [strip_prefix p s] is the rest of [s] after the literal [p]. *)
Fixpoint strip_prefix (p s : jsstring) : option jsstring :=
  match p, s with
  | [], _ => Some s
  | a :: p', b :: s' => if N.eqb a b then strip_prefix p' s' else None
  | _ :: _, [] => None
  end.

(** The greedy class [[^)]+]: the longest run without a closing
    parenthesis, and what follows it. *)
Fixpoint span_payload (s : jsstring) : jsstring * jsstring :=
  match s with
  | [] => ([], [])
  | c :: s' =>
      if N.eqb c rparen then ([], s)
      else let '(run, rest) := span_payload s' in (c :: run, rest)
  end.

(** [\]\((data:image\/[^)]+)\)] anchored at the head of [s]: capture
    group 1 and the number of code units consumed.  A run shorter than
    the longest one is followed by a code unit that is not [)], so
    backtracking into the class never helps. *)
Definition match_target (s : jsstring) : option (jsstring * nat) :=
  match strip_prefix (js "](data:image/") s with
  | None => None
  | Some s2 =>
      let '(run, rest) := span_payload s2 in
      match run, rest with
      | _ :: _, c :: _ =>
          if N.eqb c rparen
          then Some (js "data:image/" ++ run, 13 + length run + 1)
          else None
      | _, _ => None
      end
  end.

(** The lazy [.*?] followed by the rest of the pattern: the target is
    tried first, and one more code unit is skipped only when it
    fails and that unit is not a line terminator. *)
Fixpoint match_alt (s : jsstring) : option (jsstring * nat) :=
  match match_target s with
  | Some r => Some r
  | None =>
      match s with
      | [] => None
      | c :: s' =>
          if is_line_terminator c then None
          else match match_alt s' with
               | Some (g, n) => Some (g, S n)
               | None => None
               end
      end
  end.

(** The whole pattern [/!\[.*?\]\((data:image\/[^)]+)\)/] anchored at
    the head of [s]. *)
Definition match_at (s : jsstring) : option (jsstring * nat) :=
  match strip_prefix (js "![") s with
  | None => None
  | Some s1 =>
      match match_alt s1 with
      | Some (g, n) => Some (g, 2 + n)
      | None => None
      end
  end.

(** Leftmost match in [s], which starts at index [i] of the subject. *)
Fixpoint search (s : jsstring) (i : nat) : option (nat * jsstring * nat) :=
  match match_at s with
  | Some (g, n) => Some (i, g, i + n)
  | None =>
      match s with
      | [] => None
      | _ :: s' => search s' (S i)
      end
  end.

(** [regex.exec(result)] with the [g] flag, from [regex.lastIndex]:
    [match.index], [match[1]] and the new [regex.lastIndex]. *)
Definition regex_exec (result : jsstring) (lastIndex : nat)
  : option (nat * jsstring * nat) :=
  search (drop lastIndex result) lastIndex.

(** [result.slice(from, to)] for [from <= to]. *)
Definition slice (result : jsstring) (from to : nat) : jsstring :=
  take (to - from) (drop from result).

Definition inspect {A} (a : A) : {b : A | a = b} := exist _ a eq_refl.

(** The body of the loop: what one match pushes onto [parts]
    ([parts.push] appends at the end). *)
Definition push_match (result : jsstring) (lastIndex index : nat)
  (g : jsstring) (parts : list ExtractedPart) : list ExtractedPart :=
  let parts :=
    if Nat.ltb lastIndex index
    then parts ++ [TextPart (slice result lastIndex index)]
    else parts in
  match g with
  | [] => parts
  | _ :: _ => parts ++ [ImagePart g]
  end.

(** The [while ((match = regex.exec(result)))] loop: the final
    [lastIndex] and [parts]. *)
Equations? loop (result : jsstring) (lastIndex : nat) (parts : list ExtractedPart)
  : nat * list ExtractedPart by wf (length result - lastIndex) lt :=
  loop result lastIndex parts with inspect (regex_exec result lastIndex) => {
    | exist _ (Some (index, g, lastIndex')) _ =>
        loop result lastIndex' (push_match result lastIndex index g parts)
    | exist _ None _ => (lastIndex, parts) }.
Proof.
  (* every match consumes at least one code unit of the subject *)
  assert (Hspan : forall t a b,
             span_payload t = (a, b) -> length t = length a + length b).
  { induction t as [|x t IH]; cbn; intros a b H.
    - injection H as <- <-. reflexivity.
    - destruct (N.eqb x rparen).
      + injection H as <- <-. reflexivity.
      + destruct (span_payload t) as [a' b'].
        injection H as <- <-. cbn. rewrite (IH a' b' eq_refl). lia. }
  assert (Hstrip : forall p t r,
             strip_prefix p t = Some r -> length t = length p + length r).
  { induction p as [|a p IH]; intros [|b t] r; cbn; try discriminate.
    - intros [= <-]. reflexivity.
    - intros [= <-]. reflexivity.
    - destruct (N.eqb a b); [|discriminate]. intros H.
      apply IH in H. lia. }
  assert (Htarget : forall t g1 n,
             match_target t = Some (g1, n) -> 0 < n <= length t).
  { intros t g1 n. unfold match_target.
    destruct (strip_prefix _ t) as [s2|] eqn:Hp; [|discriminate].
    destruct (span_payload s2) as [run rest] eqn:Hs.
    destruct run as [|r run]; [discriminate|].
    destruct rest as [|c rest]; [discriminate|].
    destruct (N.eqb c rparen); [|discriminate].
    intros [= <- <-]. apply Hstrip in Hp. apply Hspan in Hs.
    cbn in Hp, Hs |- *. lia. }
  assert (Halt : forall t g1 n,
             match_alt t = Some (g1, n) -> 0 < n <= length t).
  { induction t as [|c t IH]; intros g1 n; cbn [match_alt].
    - destruct (match_target []) as [[g' n']|] eqn:Ht; [|discriminate].
      intros [= <- <-]. exact (Htarget _ _ _ Ht).
    - destruct (match_target (c :: t)) as [[g' n']|] eqn:Ht.
      + intros [= <- <-]. exact (Htarget _ _ _ Ht).
      + destruct (is_line_terminator c); [discriminate|].
        destruct (match_alt t) as [[g' n']|]; [|discriminate].
        intros [= <- <-]. specialize (IH _ _ eq_refl). cbn. lia. }
  assert (Hat : forall t g1 n,
             match_at t = Some (g1, n) -> 0 < n <= length t).
  { intros t g1 n. unfold match_at.
    destruct (strip_prefix _ t) as [s1|] eqn:Hp; [|discriminate].
    destruct (match_alt s1) as [[g' n']|] eqn:Ha; [|discriminate].
    intros [= <- <-]. apply Halt in Ha. apply Hstrip in Hp.
    cbn in Hp |- *. lia. }
  assert (Hsearch : forall t i idx g' e',
             search t i = Some (idx, g', e') ->
             i <= idx /\ idx < e' /\ e' <= i + length t).
  { induction t as [|c t IH]; intros i idx g' e'; cbn [search].
    - destruct (match_at []) as [[g0 n0]|] eqn:Hm; [|discriminate].
      intros [= <- <- <-]. apply Hat in Hm. lia.
    - destruct (match_at (c :: t)) as [[g0 n0]|] eqn:Hm.
      + intros [= <- <- <-]. apply Hat in Hm. lia.
      + intros H. apply IH in H. cbn. lia. }
  unfold regex_exec in e. apply Hsearch in e.
  rewrite length_drop in e. lia.
Qed.

(** [export const extractPartsFromResult = (result: string): ExtractedPart[]] *)
Definition extractPartsFromResult (result : jsstring) : list ExtractedPart :=
  let '(lastIndex, parts) := loop result 0 [] in
  if Nat.ltb lastIndex (length result)
  then parts ++ [TextPart (drop lastIndex result)]
  else parts.

(** The input holds no image reference: the pattern matches nowhere. *)
Definition no_image_reference (result : jsstring) : Prop :=
  regex_exec result 0 = None.


(** An image reference as the markdown writes it:
    [![alt](data:image/payload)]. *)
Definition image_reference (alt payload : jsstring) : jsstring :=
  js "![" ++ alt ++ js "](data:image/" ++ payload ++ [rparen].

(** [covers parts result]: [result] is, in order, the text of the text
    parts and, for every image part, an image reference with that
    data and some alt text. *)
Inductive covers : list ExtractedPart -> jsstring -> Prop :=
| covers_nil : covers [] []
| covers_text content parts rest :
    content <> [] ->
    covers parts rest ->
    covers (TextPart content :: parts) (content ++ rest)
| covers_image alt payload parts rest :
    Forall (fun c => is_line_terminator c = false) alt ->
    payload <> [] ->
    Forall (fun c => c <> rparen) payload ->
    covers parts rest ->
    covers (ImagePart (js "data:image/" ++ payload) :: parts)
      (image_reference alt payload ++ rest).

(** No text part is followed by a text part. *)
Fixpoint no_adjacent_text (parts : list ExtractedPart) : bool :=
  match parts with
  | [] => true
  | part :: rest =>
      match part, rest with
      | TextPart _, TextPart _ :: _ => false
      | _, _ => no_adjacent_text rest
      end
  end.

End ExtractParts.

(** ** Effects

    A function with effects is run to completion against a state [S]
    (the disk): it resolves with a value or rejects with a thrown
    [E], and leaves the state as its completed steps made it. *)

Module Effects.

Inductive outcome (E A : Type) : Type :=
| Resolved (a : A)
| Rejected (e : E).
Arguments Resolved {E A} a.
Arguments Rejected {E A} e.

Definition M (S E A : Type) : Type := S -> outcome E A * S.

Section Operations.
Context {S E : Type}.

Definition resolve {A} (a : A) : M S E A := fun s => (Resolved a, s).

Definition throw {A} (e : E) : M S E A := fun s => (Rejected e, s).

Definition await {A B} (m : M S E A) (k : A -> M S E B) : M S E B :=
  fun s =>
    match m s with
    | (Resolved a, s') => k a s'
    | (Rejected e, s') => (Rejected e, s')
    end.

(** [try { body } catch (e) { handler }] *)
Definition try_catch {A} (body : M S E A) (handler : E -> M S E A) : M S E A :=
  fun s =>
    match body s with
    | (Resolved a, s') => (Resolved a, s')
    | (Rejected e, s') => handler e s'
    end.
End Operations.

Declare Scope effect_scope.
Delimit Scope effect_scope with effect.
Notation "'let*' x := m 'in' k" := (await m (fun x => k))
  (at level 10, x name, m at level 100, k at level 200) : effect_scope.
Notation "m ;; k" := (await m (fun _ => k))
  (at level 100, k at level 200, right associativity) : effect_scope.

End Effects.

(** ** The Node.js runtime, as far as the services use it *)

Module Node.
Local Open Scope string_scope.

(** [path.join(a, b)] for a normalized [a] and a relative [b] without
    [.], [..] or empty segments: the two parts on either side of one
    separator. *)
Definition path_join (a b : string) : string := a ++ "/" ++ b.

(** System error codes ([e.code]). *)
Inductive errno : Type := ENOENT | EACCES | EISDIR | EIO.

End Node.

(** ** Application constants ([source/constants/index.ts]) *)

Module Constants.
Import Node.
Local Open Scope string_scope.

Section Directories.
(** [application_base_directory]: [os.homedir()] joined with the
    platform's data directory; it depends on the machine. *)
Variable application_base_directory : string.

Definition read_paper_directory : string :=
  path_join application_base_directory "readPapers".

Definition unread_paper_directory : string :=
  path_join application_base_directory "unreadPapers".
End Directories.
End Constants.

(** ** Local paper storage ([source/services/local_papers.ts]) *)

Module LocalPapers.
Import Node Constants.
Local Open Scope string_scope.

(** [interface LocalPaperMetadata]: the record stored in
    [metadata.json]; the optional fields of [ArxivPaper] are options,
    numbers are integers, dates are ISO strings. *)
Record LocalPaperMetadata : Type := {
  title : string;
  abstract : string;
  authors : list string;
  categories : list string;
  primaryCategory : string;
  pdfUrl : string;
  doi : option string;
  journalRef : option string;
  comment : option string;
  downloadedAt : Z;
  fileSize : Z;
  starred : bool;
  archived : bool;
  tags : list string;
  published : string;
  updated : string
}.

(** [new Date(iso)] *)
Inductive Date : Type := new_Date (iso : string).

(** [interface LocalPaper extends ArxivPaper] *)
Module Paper.
Record LocalPaper : Type := {
  id : string;
  title : string;
  abstract : string;
  authors : list string;
  categories : list string;
  primaryCategory : string;
  pdfUrl : string;
  doi : option string;
  journalRef : option string;
  comment : option string;
  published : Date;
  updated : Date;
  filePath : string;
  downloadedAt : Z;
  fileSize : Z;
  starred : bool;
  archived : bool;
  tags : list string
}.
End Paper.
Abbreviation LocalPaper := Paper.LocalPaper.

(** [type PapersMetadataFile = Record<string, LocalPaperMetadata>]: a
    JavaScript object used as a map from paper identifier to record.
    Every stored value is a record, hence truthy, and identifiers are
    not names of members of [Object.prototype]: [if (metadata[id])] is
    a membership test. *)
Abbreviation PapersMetadataFile := (gmap string LocalPaperMetadata).

(** The names of the members of [Object.prototype].  At a name that is
    not a key of the object, [metadata[id]] is [undefined] unless the
    name is one of these: then it is the inherited member (a function,
    or the prototype itself for [__proto__]), which is truthy and is
    no record.  The lookup [metadata !! id] is the source's
    [metadata[id]] at the keys of the object and at the names outside
    this list. *)
Definition Object_prototype_members : list string :=
  [ "constructor"; "hasOwnProperty"; "isPrototypeOf"; "propertyIsEnumerable";
    "toLocaleString"; "toString"; "valueOf"; "__proto__";
    "__defineGetter__"; "__defineSetter__"; "__lookupGetter__";
    "__lookupSetter__" ]%string.

Definition Object_prototype_member (id : string) : bool :=
  existsb (String.eqb id) Object_prototype_members.

(** [type PaperStatus = 'unread' | 'read'] *)
Inductive PaperStatus : Type := unread | read.

#[global] Instance PaperStatus_eq_dec : EqDecision PaperStatus.
Proof. solve_decision. Defined.

Definition METADATA_FILENAME : string := "metadata.json".

(** *** The disk

    The paper store holds regular files only, each at its path; the
    directories above the paths are implicit.  A file is known by what
    [JSON.parse] makes of its text: either the text is that of a
    metadata mapping, as the cast [as PapersMetadataFile] has it, or
    parsing it throws (a PDF, an empty or a damaged file).  Parsing
    what [JSON.stringify] wrote gives the mapping back: the records
    hold strings, numbers, booleans and arrays of strings.

    An operation on this disk fails in one way only, with [ENOENT] on a
    path that holds no file; refused permissions, a full disk and the
    like are not part of the model.  The handlers below are written
    against every thrown value all the same. *)
Inductive content : Type :=
| Raw (data : string)
| MetadataJson (m : PapersMetadataFile).

Abbreviation disk := (gmap string content).

(** [JSON.stringify(data, null, 2)] and [JSON.parse(rawData)] *)
Definition JSON_stringify (data : PapersMetadataFile) : content :=
  MetadataJson data.

Definition JSON_parse (rawData : content) : option PapersMetadataFile :=
  match rawData with
  | MetadataJson m => Some m
  | Raw _ => None
  end.

(** Thrown values. *)
Inductive error : Type :=
| SystemError (code : errno)
| SyntaxError.

Definition is_ENOENT (e : error) : bool :=
  match e with
  | SystemError ENOENT => true
  | _ => false
  end.

(** An [async] function of this module runs against the disk. *)
Abbreviation Async := (Effects.M disk error).
Import Effects.
Local Open Scope effect_scope.

(** *** [fs.promises] on the model disk *)
Definition fs_readFile (p : string) : Async content :=
  fun d =>
    match d !! p with
    | Some c => (Resolved c, d)
    | None => (Rejected (SystemError ENOENT), d)
    end.

Definition fs_writeFile (p : string) (data : content) : Async unit :=
  fun d => (Resolved tt, <[p := data]> d).

Definition fs_unlink (p : string) : Async unit :=
  fun d =>
    match d !! p with
    | Some _ => (Resolved tt, delete p d)
    | None => (Rejected (SystemError ENOENT), d)
    end.

(** Directories are implicit in the path-indexed disk:
    [mkdir(dir, {recursive: true})] changes no file. *)
Definition fs_mkdir (p : string) : Async unit :=
  fun d => (Resolved tt, d).

(** [fs.promises.access(p)] *)
Definition fs_access (p : string) : Async unit :=
  fun d =>
    match d !! p with
    | Some _ => (Resolved tt, d)
    | None => (Rejected (SystemError ENOENT), d)
    end.

(** ASCII white space.  [content.trim() === ''] holds of a text of
    white space only; on white space outside ASCII the model answers no,
    and the text then goes the way of every text that does not parse,
    which writes the same ['{}']. *)
Definition is_white_space (c : ascii) : bool :=
  let n := nat_of_ascii c in
  (Nat.eqb n 32 || (Nat.leb 9 n && Nat.leb n 13))%bool.

Fixpoint all_white_space (data : string) : bool :=
  match data with
  | EmptyString => true
  | String c data' => (is_white_space c && all_white_space data')%bool
  end.

Definition trims_to_empty (rawData : content) : bool :=
  match rawData with
  | Raw data => all_white_space data
  | MetadataJson _ => false
  end.

(** The text ['{}']. *)
Definition empty_object : content := MetadataJson ∅.

(** [path.dirname(p)]: [p] without its last segment. *)
Fixpoint dirname_aux (p : string) : option string :=
  match p with
  | EmptyString => None
  | String c p' =>
      match dirname_aux p' with
      | Some r => Some (String c r)
      | None => if Ascii.eqb c "/" then Some EmptyString else None
      end
  end.

Definition path_dirname (p : string) : string :=
  match dirname_aux p with
  | Some r => r
  | None => "."
  end.

Section Storage.
Variable application_base_directory : string.

Definition directory_of (status : PaperStatus) : string :=
  match status with
  | unread => unread_paper_directory application_base_directory
  | read => read_paper_directory application_base_directory
  end.

Definition metadataPath (status : PaperStatus) : string :=
  path_join (directory_of status) METADATA_FILENAME.

(** The body of [readMetadataFile], for any behaviour [readFile] of
    [fs.promises.readFile(metadataPath, 'utf-8')]. *)
Definition readMetadataFile_body (readFile : Async content)
  : Async PapersMetadataFile :=
  try_catch
    (let* rawData := readFile in
     match JSON_parse rawData with
     | Some m => resolve m
     | None => throw SyntaxError
     end)
    (fun _ => resolve ∅).

Definition readMetadataFile (status : PaperStatus) : Async PapersMetadataFile :=
  readMetadataFile_body (fs_readFile (metadataPath status)).

Definition writeMetadataFile (status : PaperStatus) (data : PapersMetadataFile)
  : Async unit :=
  fs_writeFile (metadataPath status) (JSON_stringify data).

Definition getPaperFilePath (paperId : string) (status : PaperStatus) : string :=
  path_join (directory_of status) (paperId ++ ".pdf").

Definition convertMetadataToLocalPaper
  (paperId : string) (metadata : LocalPaperMetadata) (status : PaperStatus)
  : LocalPaper :=
  {| Paper.id := paperId;
     Paper.title := title metadata;
     Paper.abstract := abstract metadata;
     Paper.authors := authors metadata;
     Paper.categories := categories metadata;
     Paper.primaryCategory := primaryCategory metadata;
     Paper.pdfUrl := pdfUrl metadata;
     Paper.doi := doi metadata;
     Paper.journalRef := journalRef metadata;
     Paper.comment := comment metadata;
     Paper.published := new_Date (published metadata);
     Paper.updated := new_Date (updated metadata);
     Paper.filePath := getPaperFilePath paperId status;
     Paper.downloadedAt := downloadedAt metadata;
     Paper.fileSize := fileSize metadata;
     Paper.starred := starred metadata;
     Paper.archived := archived metadata;
     Paper.tags := tags metadata |}.

(** [for (const status of ['unread', 'read'])] with its early
    [return]. *)
Fixpoint updatePaperMetadata_for (statuses : list PaperStatus) (id : string)
  (updateFn : LocalPaperMetadata -> LocalPaperMetadata) : Async unit :=
  match statuses with
  | [] => resolve tt
  | status :: rest =>
      let* metadataFile := readMetadataFile status in
      match metadataFile !! id with
      | Some meta =>
          writeMetadataFile status (<[id := updateFn meta]> metadataFile)
      | None => updatePaperMetadata_for rest id updateFn
      end
  end.

Definition updatePaperMetadata (id : string)
  (updateFn : LocalPaperMetadata -> LocalPaperMetadata) : Async unit :=
  updatePaperMetadata_for [unread; read] id updateFn.

(** [ensureDirectories()] of [source/utils/ensureDirectories.ts]:
    directories are implicit in the path-indexed disk, so that making
    the missing ones changes no file. *)
Definition ensureDirectories : Async unit :=
  fs_mkdir (path_join application_base_directory "cache/docling") ;;
  fs_mkdir (read_paper_directory application_base_directory) ;;
  fs_mkdir (unread_paper_directory application_base_directory).

(** One turn of the loop of [initializeLocalFileStorage]. *)
Definition ensureMetadataFile (metaPath : string) : Async unit :=
  try_catch
    (try_catch (fs_access metaPath)
       (fun _ => fs_writeFile metaPath empty_object) ;;
     let* content := fs_readFile metaPath in
     if trims_to_empty content
     then fs_writeFile metaPath empty_object
     else match JSON_parse content with
          | Some _ => resolve tt
          | None => throw SyntaxError
          end)
    (fun _ => fs_writeFile metaPath empty_object).

Definition initializeLocalFileStorage : Async unit :=
  ensureDirectories ;;
  let unreadMetaPath := path_join (unread_paper_directory application_base_directory)
                          METADATA_FILENAME in
  let readMetaPath := path_join (read_paper_directory application_base_directory)
                        METADATA_FILENAME in
  ensureMetadataFile unreadMetaPath ;;
  ensureMetadataFile readMetaPath.

Definition initLocalPapersSystem : Async unit := initializeLocalFileStorage.

(** [for (const paperId in metadata)]: the own keys of the mapping.
    The order in which JavaScript walks them is not kept by the
    model; the papers of one collection come out in the order of
    [map_to_list]. *)
Fixpoint listLocalPapers_for (statusesToScan : list PaperStatus)
  (papers : list LocalPaper) : Async (list LocalPaper) :=
  match statusesToScan with
  | [] => resolve papers
  | currentStatus :: rest =>
      let* metadata := readMetadataFile currentStatus in
      listLocalPapers_for rest
        (papers ++
         map (fun entry =>
                convertMetadataToLocalPaper (fst entry) (snd entry) currentStatus)
           (map_to_list metadata))
  end.

Definition listLocalPapers (status : option PaperStatus) : Async (list LocalPaper) :=
  let statusesToScan :=
    match status with
    | Some status => [status]
    | None => [unread; read]
    end in
  listLocalPapers_for statusesToScan [].

Fixpoint getLocalPaper_for (statuses : list PaperStatus) (id : string)
  : Async (option LocalPaper) :=
  match statuses with
  | [] => resolve None
  | status :: rest =>
      let* metadata := readMetadataFile status in
      match metadata !! id with
      | Some meta => resolve (Some (convertMetadataToLocalPaper id meta status))
      | None => getLocalPaper_for rest id
      end
  end.

Definition getLocalPaper (id : string) : Async (option LocalPaper) :=
  getLocalPaper_for [unread; read] id.

(** The guarded file move shared by both transitions:
    [try { readFile; writeFile; unlink } catch (e) { if (e.code !==
    'ENOENT') throw e }]. *)
Definition movePdf (oldPdfPath newPdfPath : string) : Async unit :=
  try_catch
    (let* fileData := fs_readFile oldPdfPath in
     fs_writeFile newPdfPath fileData ;;
     fs_unlink oldPdfPath)
    (fun e => if is_ENOENT e then resolve tt else throw e).

Definition markPaperAsRead (id : string) : Async unit :=
  let* unreadMetadata := readMetadataFile unread in
  match unreadMetadata !! id with
  | None => resolve tt
  | Some paperMeta =>
      let oldPdfPath := getPaperFilePath id unread in
      let newPdfPath := getPaperFilePath id read in
      fs_mkdir (path_dirname newPdfPath) ;;
      movePdf oldPdfPath newPdfPath ;;
      let unreadMetadata := delete id unreadMetadata in
      writeMetadataFile unread unreadMetadata ;;
      let* readMetadata := readMetadataFile read in
      let readMetadata := <[id := paperMeta]> readMetadata in
      writeMetadataFile read readMetadata
  end.

Definition markPaperAsUnread (id : string) : Async unit :=
  let* readMetadata := readMetadataFile read in
  match readMetadata !! id with
  | None => resolve tt
  | Some paperMeta =>
      let oldPdfPath := getPaperFilePath id read in
      let newPdfPath := getPaperFilePath id unread in
      fs_mkdir (path_dirname newPdfPath) ;;
      movePdf oldPdfPath newPdfPath ;;
      let readMetadata := delete id readMetadata in
      writeMetadataFile read readMetadata ;;
      let* unreadMetadata := readMetadataFile unread in
      let unreadMetadata := <[id := paperMeta]> unreadMetadata in
      writeMetadataFile unread unreadMetadata
  end.

Fixpoint deleteLocalPaper_for (statuses : list PaperStatus) (id : string)
  : Async unit :=
  match statuses with
  | [] => resolve tt
  | status :: rest =>
      let* metadata := readMetadataFile status in
      match metadata !! id with
      | Some _ =>
          let pdfPath := getPaperFilePath id status in
          try_catch (fs_unlink pdfPath)
            (fun e => if is_ENOENT e then resolve tt else throw e) ;;
          writeMetadataFile status (delete id metadata)
      | None => deleteLocalPaper_for rest id
      end
  end.

Definition deleteLocalPaper (id : string) : Async unit :=
  deleteLocalPaper_for [unread; read] id.

(** The object spreads [{...meta, starred}], [{...meta, archived}]
    and [{...meta, tags}]. *)
Definition with_starred (meta : LocalPaperMetadata) (v : bool) : LocalPaperMetadata :=
  {| title := title meta; abstract := abstract meta; authors := authors meta;
     categories := categories meta; primaryCategory := primaryCategory meta;
     pdfUrl := pdfUrl meta; doi := doi meta; journalRef := journalRef meta;
     comment := comment meta; downloadedAt := downloadedAt meta;
     fileSize := fileSize meta; starred := v; archived := archived meta;
     tags := tags meta; published := published meta; updated := updated meta |}.

Definition with_archived (meta : LocalPaperMetadata) (v : bool) : LocalPaperMetadata :=
  {| title := title meta; abstract := abstract meta; authors := authors meta;
     categories := categories meta; primaryCategory := primaryCategory meta;
     pdfUrl := pdfUrl meta; doi := doi meta; journalRef := journalRef meta;
     comment := comment meta; downloadedAt := downloadedAt meta;
     fileSize := fileSize meta; starred := starred meta; archived := v;
     tags := tags meta; published := published meta; updated := updated meta |}.

Definition with_tags (meta : LocalPaperMetadata) (v : list string) : LocalPaperMetadata :=
  {| title := title meta; abstract := abstract meta; authors := authors meta;
     categories := categories meta; primaryCategory := primaryCategory meta;
     pdfUrl := pdfUrl meta; doi := doi meta; journalRef := journalRef meta;
     comment := comment meta; downloadedAt := downloadedAt meta;
     fileSize := fileSize meta; starred := starred meta; archived := archived meta;
     tags := v; published := published meta; updated := updated meta |}.

(** A JavaScript [Set] of strings, in insertion order. *)
Definition Set_add (s : list string) (x : string) : list string :=
  if decide (x ∈ s) then s else s ++ [x].

Definition new_Set (l : list string) : list string :=
  fold_left Set_add l [].

Definition setPaperStarred (id : string) (starred : bool) : Async unit :=
  updatePaperMetadata id (fun meta => with_starred meta starred).

Definition setPaperArchived (id : string) (archived : bool) : Async unit :=
  updatePaperMetadata id (fun meta => with_archived meta archived).

Definition addPaperTag (id : string) (tag : string) : Async unit :=
  updatePaperMetadata id (fun meta =>
    let newTags := Set_add (new_Set (tags meta)) tag in
    with_tags meta newTags).

Definition removePaperTag (id : string) (tag : string) : Async unit :=
  updatePaperMetadata id (fun meta =>
    let newTags := filter (fun t => t ≠ tag) (tags meta) in
    with_tags meta newTags).

(** *** What the properties speak of

    The metadata mapping of a collection is what [readMetadataFile]
    hands back on the disk [d]. *)
Definition mapping (d : disk) (status : PaperStatus) : PapersMetadataFile :=
  match readMetadataFile status d with
  | (Resolved m, _) => m
  | (Rejected _, _) => ∅
  end.

Definition present (d : disk) (status : PaperStatus) (id : string) : Prop :=
  is_Some (mapping d status !! id).

Definition at_most_one_collection (d : disk) (id : string) : Prop :=
  ~ (present d unread id /\ present d read id).

(** The first collection, unread before read, whose mapping holds the
    identifier, with the record found there. *)
Definition locate (d : disk) (id : string)
  : option (PaperStatus * LocalPaperMetadata) :=
  match mapping d unread !! id with
  | Some meta => Some (unread, meta)
  | None =>
      match mapping d read !! id with
      | Some meta => Some (read, meta)
      | None => None
      end
  end.

Definition other (status : PaperStatus) : PaperStatus :=
  match status with
  | unread => read
  | read => unread
  end.
End Storage.

End LocalPapers.

(** ** Sample data for the local paper storage *)

Module LocalPapersSamples.
Import Node Constants LocalPapers.
Local Open Scope string_scope.

Definition home : string := "/home/reader/.arxiv-reader".

Definition paper_id : string := "2301.00001v1".

Definition paper_meta : LocalPaperMetadata :=
  {| title := "A paper";
     abstract := "An abstract";
     authors := ["A. Author"; "B. Author"];
     categories := ["cs.LO"];
     primaryCategory := "cs.LO";
     pdfUrl := "http://arxiv.org/pdf/2301.00001v1";
     doi := None;
     journalRef := None;
     comment := Some "12 pages";
     downloadedAt := 1700000000000;
     fileSize := 204800;
     starred := false;
     archived := false;
     tags := ["logic"];
     published := "2023-01-01T00:00:00.000Z";
     updated := "2023-01-02T00:00:00.000Z" |}.

(** A downloaded, unread paper: its record and its PDF. *)
Definition unread_paper_disk : disk :=
  <[metadataPath home unread := MetadataJson {[paper_id := paper_meta]}]>
    (<[getPaperFilePath home paper_id unread := Raw "%PDF-1.7"]> ∅).

(** The record is in the unread collection, no PDF is beside it,
    and a PDF of that name lies in the read directory (what an
    interrupted move to the read collection leaves behind). *)
Definition interrupted_move_disk : disk :=
  <[metadataPath home unread := MetadataJson {[paper_id := paper_meta]}]>
    (<[getPaperFilePath home paper_id read := Raw "%PDF-1.7"]> ∅).

(** The record is in the unread collection and its PDF is gone. *)
Definition missing_pdf_disk : disk :=
  <[metadataPath home unread := MetadataJson {[paper_id := paper_meta]}]> ∅.

(** A paper that has been read: its record and its PDF are in the
    read collection, and both metadata files exist. *)
Definition read_paper_disk : disk :=
  <[metadataPath home unread := MetadataJson ∅]>
    (<[metadataPath home read := MetadataJson {[paper_id := paper_meta]}]>
       (<[getPaperFilePath home paper_id read := Raw "%PDF-1.7"]> ∅)).


End LocalPapersSamples.

(** ** Conversion cache and pipeline ([source/services/docling.ts]) *)

Module Docling.
Import Node Effects.
Local Open Scope string_scope.
Local Open Scope effect_scope.

(** [interface CacheEntry] *)
Record CacheEntry : Type := {
  pdfPath : string;
  outputPath : string;
  timestamp : Z
}.

Definition MAX_CACHE_SIZE : nat := 5.

(** *** The disk

    The text of a file is known by what [JSON.parse] makes of it: the
    text of a list of cache entries, or text on which parsing throws
    (Markdown).  A path holds a file or an output directory with the
    files in it; the directories above a path are implicit.  Reading
    or writing a directory as a file fails with [EISDIR], a missing
    path with [ENOENT]; a forced recursive removal never fails. *)
Inductive text : Type :=
| Plain (s : string)
| CacheJson (cache : list CacheEntry).

Inductive node : Type :=
| File (t : text)
| Directory (files : list (string * text)).

Abbreviation disk := (gmap string node).

Definition JSON_stringify (cache : list CacheEntry) : text := CacheJson cache.

Definition JSON_parse (cacheData : text) : option (list CacheEntry) :=
  match cacheData with
  | CacheJson cache => Some cache
  | Plain _ => None
  end.

(** Thrown values: system errors, [SyntaxError], [new Error(message)]
    and the rejection of [exec] on a failed command. *)
Inductive error : Type :=
| SystemError (code : errno)
| SyntaxError
| Error (message : string)
| ExecError.

Abbreviation Sync := (Effects.M disk error).

(** *** [fs] on the model disk *)
Definition exists_on (d : disk) (p : string) : bool :=
  match d !! p with
  | Some _ => true
  | None => false
  end.

Definition fs_existsSync (p : string) : Sync bool :=
  fun d => (Resolved (exists_on d p), d).

Definition fs_readFileSync (p : string) : Sync text :=
  fun d =>
    match d !! p with
    | Some (File t) => (Resolved t, d)
    | Some (Directory _) => (Rejected (SystemError EISDIR), d)
    | None => (Rejected (SystemError ENOENT), d)
    end.

Definition fs_writeFileSync (p : string) (t : text) : Sync unit :=
  fun d =>
    match d !! p with
    | Some (Directory _) => (Rejected (SystemError EISDIR), d)
    | _ => (Resolved tt, <[p := File t]> d)
    end.

Definition fs_statSync (p : string) : Sync node :=
  fun d =>
    match d !! p with
    | Some n => (Resolved n, d)
    | None => (Rejected (SystemError ENOENT), d)
    end.

(** [fs.rmSync(p, {recursive: true, force: true})] *)
Definition fs_rmSync (p : string) : Sync unit :=
  fun d => (Resolved tt, delete p d).

(** [fs.mkdirSync(p, {recursive: true})]: directories above a path
    are implicit. *)
Definition fs_mkdirSync (p : string) : Sync unit :=
  fun d => (Resolved tt, d).

(** [f.endsWith(suffix)] *)
Definition endsWith (f suffix : string) : bool :=
  (Nat.leb (String.length suffix) (String.length f)
   && String.eqb
        (substring (String.length f - String.length suffix)
           (String.length suffix) f)
        suffix)%bool.

(** [.replace(/[^a-zA-Z0-9.-]/g, '_')] *)
Definition safe_char (c : ascii) : ascii :=
  let n := nat_of_ascii c in
  if ((Nat.leb 97 n && Nat.leb n 122) || (Nat.leb 65 n && Nat.leb n 90)
      || (Nat.leb 48 n && Nat.leb n 57) || Nat.eqb n 46 || Nat.eqb n 45)%bool
  then c else "_"%char.

Fixpoint sanitize (s : string) : string :=
  match s with
  | EmptyString => EmptyString
  | String c s' => String (safe_char c) (sanitize s')
  end.

(** The characters that a sanitized name is made of: letters, digits,
    [.], [-] and the replacement [_]. *)
Definition is_name_char (c : ascii) : bool :=
  let n := nat_of_ascii c in
  ((Nat.leb 97 n && Nat.leb n 122) || (Nat.leb 65 n && Nat.leb n 90)
   || (Nat.leb 48 n && Nat.leb n 57) || Nat.eqb n 46 || Nat.eqb n 45
   || Nat.eqb n 95)%bool.

(** What the environment answers during one call of [pdfToMarkdown]:
    the clock, the time-and-random suffix, and the run of the
    external [docling] command, which exits with or without success
    and leaves a file, a directory or nothing at its [--output]
    path. *)
Record Run : Type := {
  Date_now : Z;
  uniqueId : string;
  docling_exit_ok : bool;
  docling_output : option node
}.

Definition with_timestamp (entry : CacheEntry) (t : Z) : CacheEntry :=
  {| pdfPath := pdfPath entry; outputPath := outputPath entry; timestamp := t |}.

(** Modelled from the spec: [tryCatch] of [source/types/try-catch.ts]
    is not among the sources.  As its use shows ([result.error],
    [result.data]) it awaits a promise and hands back its value or
    the error it threw, so that a failed conversion can be cleaned up
    before the error propagates. *)
Definition tryCatch {A} (promise : Sync A) : Sync (A + error) :=
  fun d =>
    match promise d with
    | (Resolved a, d') => (Resolved (inl a), d')
    | (Rejected e, d') => (Resolved (inr e), d')
    end.

Section Cache.
(** [process.cwd()], [path.normalize] and [path.basename]. *)
Variable cwd : string.
Variable path_normalize : string -> string.
Variable path_basename : string -> string.

Definition CACHE_DIR : string := path_join cwd ".docling_cache".

Definition CACHE_METADATA_FILE : string :=
  path_join CACHE_DIR "cache_metadata.json".

Definition saveCache (cache : list CacheEntry) : Sync unit :=
  try_catch
    (fs_writeFileSync CACHE_METADATA_FILE (JSON_stringify cache))
    (fun _ => resolve tt).

Definition initializeCache : Sync (list CacheEntry) :=
  (let* present := fs_existsSync CACHE_DIR in
   if negb present then fs_mkdirSync CACHE_DIR else resolve tt) ;;
  try_catch
    (let* present := fs_existsSync CACHE_METADATA_FILE in
     if present then
       let* cacheData := fs_readFileSync CACHE_METADATA_FILE in
       match JSON_parse cacheData with
       | None => throw SyntaxError
       | Some cache =>
           let* cache :=
             (fun d =>
                (Resolved
                   (List.filter (fun entry => exists_on d (outputPath entry)) cache),
                 d)) in
           saveCache cache ;;
           resolve cache
       end
     else resolve [])
    (fun _ => resolve []).

(** The block shared by the hit and the miss: [statSync], then the
    [.md] file of a directory or the file itself. *)
Definition readMarkdown (markdownPath : string) : Sync text :=
  let* stat := fs_statSync markdownPath in
  match stat with
  | Directory files =>
      match List.find (fun f => endsWith (fst f) ".md") files with
      | None => throw (Error "No markdown file found in directory")
      | Some (_, data) => resolve data
      end
  | File _ => fs_readFileSync markdownPath
  end.

(** [exec(command)] *)
Definition exec_docling (run : Run) (output : string) : Sync unit :=
  fun d =>
    let d' := match docling_output run with
              | Some n => <[output := n]> d
              | None => d
              end in
    (if docling_exit_ok run then Resolved tt else Rejected ExecError, d').

Definition tempFilePath_of (run : Run) (normalizedPath : string) : string :=
  let safeName := sanitize (path_basename normalizedPath) in
  let outputName := "docling-" ++ safeName ++ "-" ++ uniqueId run in
  path_join CACHE_DIR (outputName ++ ".md").

(** Best-effort removal: [if (existsSync(p)) { try { rmSync(p) }
    catch {} }]. *)
Definition cleanup (p : string) : Sync unit :=
  let* present := fs_existsSync p in
  if present
  then try_catch (fs_rmSync p) (fun _ => resolve tt)
  else resolve tt.

(** The rest of [pdfToMarkdown] once the lookup has missed:
    conversion, insertion at the front, eviction at the back. *)
Definition convertAndInsert (run : Run) (normalizedPath : string)
  (pdfCache : list CacheEntry) : Sync text :=
  let tempFilePath := tempFilePath_of run normalizedPath in
  let* result :=
    tryCatch (exec_docling run tempFilePath ;; readMarkdown tempFilePath) in
  match result with
  | inr e => cleanup tempFilePath ;; throw e
  | inl data =>
      let pdfCache :=
        {| pdfPath := normalizedPath;
           outputPath := tempFilePath;
           timestamp := Date_now run |} :: pdfCache in
      let* pdfCache :=
        if Nat.ltb MAX_CACHE_SIZE (length pdfCache) then
          (match last pdfCache with
           | Some evictedEntry => cleanup (outputPath evictedEntry)
           | None => resolve tt
           end) ;;
          resolve (removelast pdfCache)
        else resolve pdfCache in
      saveCache pdfCache ;;
      resolve data
  end.

Definition pdfToMarkdown (run : Run) (pdfPath_ : string) : Sync text :=
  let* pdfCache := initializeCache in
  let normalizedPath := path_normalize pdfPath_ in
  match list_find (fun entry => path_normalize (pdfPath entry) = normalizedPath)
          pdfCache with
  | Some (cacheIndex, cachedEntry) =>
      let* present := fs_existsSync (outputPath cachedEntry) in
      if present then
        let pdfCache := delete cacheIndex pdfCache in
        let cachedEntry := with_timestamp cachedEntry (Date_now run) in
        let pdfCache := cachedEntry :: pdfCache in
        saveCache pdfCache ;;
        readMarkdown (outputPath cachedEntry)
      else
        let pdfCache := delete cacheIndex pdfCache in
        saveCache pdfCache ;;
        convertAndInsert run normalizedPath pdfCache
  | None => convertAndInsert run normalizedPath pdfCache
  end.

(** *** What the properties speak of

    The cache between two calls is the list in the index file. *)
Definition persisted_cache (d : disk) : list CacheEntry :=
  match d !! CACHE_METADATA_FILE with
  | Some (File cacheData) =>
      match JSON_parse cacheData with
      | Some cache => cache
      | None => []
      end
  | _ => []
  end.

(** The entries whose output is still on the disk [d]: the cache as
    [initializeCache] validates it. *)
Definition validated (d : disk) (cache : list CacheEntry) : list CacheEntry :=
  List.filter (fun entry => exists_on d (outputPath entry)) cache.

(** [entry] is a cache entry for the source path [p]. *)
Definition entry_for (p : string) (entry : CacheEntry) : Prop :=
  path_normalize (pdfPath entry) = path_normalize p.

(** The entry that a successful conversion of [p] inserts. *)
Definition inserted_entry (run : Run) (p : string) : CacheEntry :=
  {| pdfPath := path_normalize p;
     outputPath := tempFilePath_of run (path_normalize p);
     timestamp := Date_now run |}.

(** The index as the service itself keeps it: at most
    [MAX_CACHE_SIZE] entries, none of which has the index file as
    its output. *)
Definition well_kept (d : disk) : Prop :=
  length (persisted_cache d) <= MAX_CACHE_SIZE /\
  Forall (fun entry => outputPath entry <> CACHE_METADATA_FILE)
    (persisted_cache d).

(** A path directly below the cache directory. *)
Definition in_cache_dir (q : string) : Prop :=
  exists name, q = path_join CACHE_DIR name.

(** The lookup keys of a cache, in its order. *)
Definition keys (cache : list CacheEntry) : list string :=
  (fun entry => path_normalize (pdfPath entry)) <$> cache.

(** The disk after a sequence of calls of [pdfToMarkdown]. *)
Fixpoint run_calls (calls : list (Run * string)) (d : disk) : disk :=
  match calls with
  | [] => d
  | (run, p) :: rest => run_calls rest (pdfToMarkdown run p d).2
  end.
End Cache.

End Docling.

(** ** Sample data for the conversion cache *)

Module DoclingSamples.
Import Node Docling.
Local Open Scope string_scope.

Definition cwd : string := "/work".

(** The sample paths are normalized already. *)
Definition normalize (p : string) : string := p.

Fixpoint has_slash (p : string) : bool :=
  match p with
  | EmptyString => false
  | String c p' => (Ascii.eqb c "/" || has_slash p')%bool
  end.

(** The last segment of a path. *)
Fixpoint basename (p : string) : string :=
  match p with
  | EmptyString => EmptyString
  | String c p' => if has_slash p' then basename p' else
                     if Ascii.eqb c "/" then p' else p
  end.

(** A successful conversion at time [t] with suffix [suffix]. *)
Definition converts (t : Z) (suffix : string) : Run :=
  {| Date_now := t;
     uniqueId := suffix;
     docling_exit_ok := true;
     docling_output := Some (File (Plain "# converted")) |}.

(** Five conversions of five papers.  The clock runs backwards here,
    so that the entry at the back of the cache carries the largest
    timestamp. *)
Definition five_calls : list (Run * string) :=
  [ (converts 500 "a", "/papers/1.pdf");
    (converts 400 "b", "/papers/2.pdf");
    (converts 300 "c", "/papers/3.pdf");
    (converts 200 "d", "/papers/4.pdf");
    (converts 100 "e", "/papers/5.pdf") ].

(** The entry that the conversion of [/papers/<name>] at time [t] with
    suffix [suffix] inserts. *)
Definition sample_entry (t : Z) (suffix name : string) : CacheEntry :=
  {| pdfPath := "/papers/" ++ name;
     outputPath := "/work/.docling_cache/docling-" ++ name ++ "-" ++ suffix ++ ".md";
     timestamp := t |}.

Definition five_entries : list CacheEntry :=
  [ sample_entry 100 "e" "5.pdf";
    sample_entry 200 "d" "4.pdf";
    sample_entry 300 "c" "3.pdf";
    sample_entry 400 "b" "2.pdf";
    sample_entry 500 "a" "1.pdf" ].

(** A cache index with one entry whose output is not on the disk. *)
Definition stale_entry : CacheEntry := sample_entry 500 "a" "1.pdf".

Definition stale_disk : disk :=
  <[CACHE_METADATA_FILE cwd := File (CacheJson [stale_entry])]> ∅.

(** The disk after the five conversions. *)
Definition five_papers_disk : disk :=
  run_calls cwd normalize basename five_calls ∅.

(** The disk after the first of them. *)
Definition one_paper_disk : disk :=
  run_calls cwd normalize basename [(converts 500 "a", "/papers/1.pdf")] ∅.

(** A conversion that exits with an error and leaves half an output. *)
Definition fails (t : Z) (suffix : string) : Run :=
  {| Date_now := t;
     uniqueId := suffix;
     docling_exit_ok := false;
     docling_output := Some (File (Plain "# conv")) |}.

(** A conversion that leaves a directory with assets. *)
Definition converts_to_directory (t : Z) (suffix : string) : Run :=
  {| Date_now := t;
     uniqueId := suffix;
     docling_exit_ok := true;
     docling_output :=
       Some (Directory [("figure.png", Plain "PNG"); ("paper.md", Plain "# paper");
                        ("notes.md", Plain "# notes")]) |}.

End DoclingSamples.

(** * Properties *)

(** ** Strings *)

Module StringFacts.

Lemma append_assoc (s1 s2 s3 : string) :
  ((s1 ++ s2) ++ s3 = s1 ++ (s2 ++ s3))%string.
Proof.
  induction s1 as [|c s1 IH]; [reflexivity|].
  change (String c ((s1 ++ s2) ++ s3) = String c (s1 ++ (s2 ++ s3)))%string.
  f_equal. exact IH.
Qed.

End StringFacts.

(** ** Part extraction *)

Module ExtractPartsFacts.
Import ExtractParts.

Lemma loop_unfold result lastIndex parts :
  loop result lastIndex parts =
  match regex_exec result lastIndex with
  | Some (index, g, lastIndex') =>
      loop result lastIndex' (push_match result lastIndex index g parts)
  | None => (lastIndex, parts)
  end.
Proof.
  funelim (loop result lastIndex parts); rewrite e; reflexivity.
Qed.


Lemma span_payload_run payload rest :
  Forall (fun c => c <> rparen) payload ->
  span_payload (payload ++ rparen :: rest) = (payload, rparen :: rest).
Proof.
  induction 1 as [|c payload Hc _ IH]; cbn.
  - reflexivity.
  - destruct (N.eqb_spec c rparen) as [->|_]; [contradiction|].
    rewrite IH. reflexivity.
Qed.

Lemma strip_prefix_app p s : strip_prefix p (p ++ s) = Some s.
Proof.
  induction p as [|a p IH]; cbn; [reflexivity|].
  rewrite N.eqb_refl. exact IH.
Qed.

Lemma match_target_reference payload rest :
  payload <> [] ->
  Forall (fun c => c <> rparen) payload ->
  match_target (js "](data:image/" ++ payload ++ rparen :: rest) =
  Some (js "data:image/" ++ payload, 13 + length payload + 1).
Proof.
  intros Hne Hp. unfold match_target.
  rewrite strip_prefix_app, (span_payload_run _ _ Hp).
  destruct payload as [|c payload]; [contradiction|].
  reflexivity.
Qed.

Lemma match_target_not_bracket c s : c <> 93%N -> match_target (c :: s) = None.
Proof.
  intros Hc. unfold match_target.
  change (js "](data:image/") with (93%N :: js "(data:image/").
  cbn [strip_prefix].
  destruct (N.eqb_spec 93 c) as [E|_]; [congruence|reflexivity].
Qed.

(** The lazy quantifier walks over an alt text without [ ] ] and
    without line terminators up to the target. *)
Lemma match_alt_reference alt tail g n :
  Forall (fun c => c <> 93%N /\ is_line_terminator c = false) alt ->
  match_target tail = Some (g, n) ->
  match_alt (alt ++ tail) = Some (g, length alt + n).
Proof.
  intros Halt Ht. induction Halt as [|c alt [Hc Hl] _ IH].
  - destruct tail; cbn [app match_alt]; rewrite Ht; reflexivity.
  - cbn [app match_alt]. rewrite (match_target_not_bracket _ _ Hc), Hl, IH.
    reflexivity.
Qed.

Lemma search_head s i g n :
  match_at s = Some (g, n) -> search s i = Some (i, g, i + n).
Proof.
  intros H. destruct s; cbn [search]; rewrite H; reflexivity.
Qed.





(** With no image reference, a non-empty input is one text segment. *)
Lemma extractParts_plain result :
  result <> [] -> no_image_reference result ->
  extractPartsFromResult result = [TextPart result].
Proof.
  intros Hne Hno. unfold extractPartsFromResult.
  rewrite loop_unfold, Hno.
  destruct result as [|c result]; [contradiction|].
  reflexivity.
Qed.




End ExtractPartsFacts.

(** ** Local paper storage *)

Module LocalPapersFacts.
Import Node Constants Effects LocalPapers StringFacts.

Ltac run :=
  unfold await, resolve, throw, try_catch,
    fs_readFile, fs_writeFile, fs_unlink, fs_mkdir in *.

(** *** Paths *)

Lemma pdf_name_not_metadata (id : string) :
  (id ++ ".pdf")%string <> METADATA_FILENAME.
Proof.
  unfold METADATA_FILENAME. intros H.
  do 13 (destruct id as [|? id]; cbn in H; [discriminate H|]; injection H as _ H).
  destruct id; discriminate H.
Qed.

Section Paths.
Variable base : string.

Lemma metadataPath_inj s1 s2 :
  metadataPath base s1 = metadataPath base s2 -> s1 = s2.
Proof.
  unfold metadataPath, directory_of, unread_paper_directory,
    read_paper_directory, path_join.
  destruct s1, s2; try reflexivity; intros H;
    rewrite !append_assoc in H;
    apply (inj (String.app base)) in H; discriminate H.
Qed.

Lemma pdf_not_metadata id s1 s2 :
  getPaperFilePath base id s1 <> metadataPath base s2.
Proof.
  unfold getPaperFilePath, metadataPath, directory_of, unread_paper_directory,
    read_paper_directory, path_join.
  destruct s1, s2; intros H;
    rewrite !append_assoc in H;
    apply (inj (String.app base)) in H;
    try discriminate H;
    do 3 apply (inj (String.app _)) in H;
    exact (pdf_name_not_metadata _ H).
Qed.

Lemma pdf_unread_not_read id :
  getPaperFilePath base id unread <> getPaperFilePath base id read.
Proof.
  unfold getPaperFilePath, directory_of, unread_paper_directory,
    read_paper_directory, path_join.
  intros H. rewrite !append_assoc in H.
  apply (inj (String.app base)) in H. discriminate H.
Qed.
End Paths.

(** *** The operations on the model disk *)

Section Store.
Variable base : string.
Local Abbreviation mp := (metadataPath base).
Local Abbreviation pdf := (getPaperFilePath base).
Local Abbreviation mapping := (LocalPapers.mapping base).

Lemma mapping_lookup (d : gmap string content) status :
  mapping d status =
  match d !! mp status with
  | Some (MetadataJson m) => m
  | _ => ∅
  end.
Proof.
  unfold LocalPapers.mapping, readMetadataFile, readMetadataFile_body. run.
  destruct (d !! mp status) as [[|]|]; reflexivity.
Qed.

Lemma readMetadataFile_eq status (d : gmap string content) :
  readMetadataFile base status d = (Resolved (mapping d status), d).
Proof.
  unfold LocalPapers.mapping, readMetadataFile, readMetadataFile_body. run.
  destruct (d !! mp status) as [[|]|]; reflexivity.
Qed.

Lemma mapping_frame (d d' : gmap string content) status :
  d' !! mp status = d !! mp status -> mapping d' status = mapping d status.
Proof. intros H. rewrite !mapping_lookup, H. reflexivity. Qed.

Lemma mapping_written status m (d : gmap string content) :
  mapping (<[mp status := MetadataJson m]> d) status = m.
Proof. rewrite mapping_lookup, lookup_insert_eq. reflexivity. Qed.

Lemma movePdf_resolves old new (d : gmap string content) :
  (movePdf old new d).1 = Resolved tt.
Proof.
  unfold movePdf. run. destruct (d !! old) as [c|] eqn:E; [|reflexivity].
  destruct (decide (new = old)) as [->|Hne].
  - rewrite lookup_insert_eq. reflexivity.
  - rewrite lookup_insert_ne, E by exact Hne. reflexivity.
Qed.

Lemma movePdf_disk old new (d : gmap string content) :
  (movePdf old new d).2 =
  match d !! old with
  | Some c => delete old (<[new := c]> d)
  | None => d
  end.
Proof.
  unfold movePdf. run. destruct (d !! old) as [c|] eqn:E; [|reflexivity].
  destruct (decide (new = old)) as [->|Hne].
  - rewrite lookup_insert_eq. reflexivity.
  - rewrite lookup_insert_ne, E by exact Hne. reflexivity.
Qed.

Lemma movePdf_frame old new (d : gmap string content) p :
  p <> old -> p <> new -> (movePdf old new d).2 !! p = d !! p.
Proof.
  intros Ho Hn. rewrite movePdf_disk. destruct (d !! old); [|reflexivity].
  rewrite lookup_delete_ne, lookup_insert_ne by congruence. reflexivity.
Qed.

Lemma mapping_movePdf id s1 s2 (d : gmap string content) status :
  mapping (movePdf (pdf id s1) (pdf id s2) d).2 status = mapping d status.
Proof.
  apply mapping_frame, movePdf_frame; apply not_eq_sym, pdf_not_metadata.
Qed.

Lemma markPaperAsRead_absent id (d : gmap string content) :
  mapping d unread !! id = None ->
  markPaperAsRead base id d = (Resolved tt, d).
Proof.
  intros H. unfold markPaperAsRead. run. rewrite readMetadataFile_eq, H.
  reflexivity.
Qed.

Lemma markPaperAsRead_present id (d : gmap string content) meta :
  mapping d unread !! id = Some meta ->
  exists d',
    markPaperAsRead base id d = (Resolved tt, d') /\
    mapping d' unread = delete id (mapping d unread) /\
    mapping d' read = <[id := meta]> (mapping d read) /\
    (forall p, p <> mp unread -> p <> mp read ->
               d' !! p = (movePdf (pdf id unread) (pdf id read) d).2 !! p).
Proof.
  intros H. unfold markPaperAsRead, writeMetadataFile. run.
  rewrite readMetadataFile_eq, H.
  destruct (movePdf (pdf id unread) (pdf id read) d) as [r d1] eqn:Hmove.
  pose proof (movePdf_resolves (pdf id unread) (pdf id read) d) as Hr.
  rewrite Hmove in Hr. cbn in Hr. subst r.
  rewrite readMetadataFile_eq.
  eexists. split; [reflexivity|].
  assert (Hd1 : d1 = (movePdf (pdf id unread) (pdf id read) d).2)
    by (rewrite Hmove; reflexivity).
  assert (Hne : mp unread <> mp read)
    by (intros E; apply metadataPath_inj in E; discriminate E).
  split; [|split].
  - etransitivity; [|apply mapping_written].
    apply mapping_frame. rewrite lookup_insert_ne by congruence. reflexivity.
  - rewrite mapping_written. f_equal.
    rewrite (mapping_frame d1); [rewrite Hd1; apply mapping_movePdf|].
    rewrite lookup_insert_ne by congruence. reflexivity.
  - intros p Hu Hrd. rewrite !lookup_insert_ne by congruence.
    rewrite Hd1. reflexivity.
Qed.

Lemma markPaperAsUnread_absent id (d : gmap string content) :
  mapping d read !! id = None ->
  markPaperAsUnread base id d = (Resolved tt, d).
Proof.
  intros H. unfold markPaperAsUnread. run. rewrite readMetadataFile_eq, H.
  reflexivity.
Qed.

Lemma markPaperAsUnread_present id (d : gmap string content) meta :
  mapping d read !! id = Some meta ->
  exists d',
    markPaperAsUnread base id d = (Resolved tt, d') /\
    mapping d' read = delete id (mapping d read) /\
    mapping d' unread = <[id := meta]> (mapping d unread) /\
    (forall p, p <> mp unread -> p <> mp read ->
               d' !! p = (movePdf (pdf id read) (pdf id unread) d).2 !! p).
Proof.
  intros H. unfold markPaperAsUnread, writeMetadataFile. run.
  rewrite readMetadataFile_eq, H.
  destruct (movePdf (pdf id read) (pdf id unread) d) as [r d1] eqn:Hmove.
  pose proof (movePdf_resolves (pdf id read) (pdf id unread) d) as Hr.
  rewrite Hmove in Hr. cbn in Hr. subst r.
  rewrite readMetadataFile_eq.
  eexists. split; [reflexivity|].
  assert (Hd1 : d1 = (movePdf (pdf id read) (pdf id unread) d).2)
    by (rewrite Hmove; reflexivity).
  assert (Hne : mp read <> mp unread)
    by (intros E; apply metadataPath_inj in E; discriminate E).
  split; [|split].
  - etransitivity; [|apply mapping_written].
    apply mapping_frame. rewrite lookup_insert_ne by congruence. reflexivity.
  - rewrite mapping_written. f_equal.
    rewrite (mapping_frame d1); [rewrite Hd1; apply mapping_movePdf|].
    rewrite lookup_insert_ne by congruence. reflexivity.
  - intros p Hu Hrd. rewrite !lookup_insert_ne by congruence.
    rewrite Hd1. reflexivity.
Qed.

(** Deleting from the first collection that holds the identifier. *)
Lemma deleteLocalPaper_for_here status rest id (d : gmap string content) :
  is_Some (mapping d status !! id) ->
  deleteLocalPaper_for base (status :: rest) id d =
  (Resolved tt,
   <[mp status := MetadataJson (delete id (mapping d status))]>
     (delete (pdf id status) d)).
Proof.
  intros [meta H]. cbn [deleteLocalPaper_for]. unfold writeMetadataFile. run.
  rewrite readMetadataFile_eq, H.
  destruct (d !! pdf id status) as [c|] eqn:E; cbn.
  - reflexivity.
  - rewrite (delete_id d) by exact E. reflexivity.
Qed.

Lemma deleteLocalPaper_for_next status rest id (d : gmap string content) :
  mapping d status !! id = None ->
  deleteLocalPaper_for base (status :: rest) id d =
  deleteLocalPaper_for base rest id d.
Proof.
  intros H. cbn [deleteLocalPaper_for]. run.
  rewrite readMetadataFile_eq, H. reflexivity.
Qed.

Lemma mapping_after_delete status status' id (d : gmap string content) :
  mapping
    (<[mp status := MetadataJson (delete id (mapping d status))]>
       (delete (pdf id status) d)) status' =
  if decide (status' = status) then delete id (mapping d status)
  else mapping d status'.
Proof.
  destruct (decide (status' = status)) as [->|Hne].
  - apply mapping_written.
  - apply mapping_frame.
    rewrite lookup_insert_ne
      by (intros E; apply metadataPath_inj in E; congruence).
    rewrite lookup_delete_ne by apply pdf_not_metadata. reflexivity.
Qed.

Lemma updatePaperMetadata_absent id updateFn (d : gmap string content) :
  mapping d unread !! id = None -> mapping d read !! id = None ->
  updatePaperMetadata base id updateFn d = (Resolved tt, d).
Proof.
  intros Hu Hr. unfold updatePaperMetadata. cbn [updatePaperMetadata_for]. run.
  rewrite readMetadataFile_eq, Hu, readMetadataFile_eq, Hr. reflexivity.
Qed.

Lemma getLocalPaper_eq id (d : gmap string content) :
  getLocalPaper base id d =
  (Resolved
     match mapping d unread !! id with
     | Some meta => Some (convertMetadataToLocalPaper base id meta unread)
     | None =>
         match mapping d read !! id with
         | Some meta => Some (convertMetadataToLocalPaper base id meta read)
         | None => None
         end
     end, d).
Proof.
  unfold getLocalPaper. cbn [getLocalPaper_for]. run.
  rewrite readMetadataFile_eq.
  destruct (mapping d unread !! id); [reflexivity|].
  rewrite readMetadataFile_eq.
  destruct (mapping d read !! id); reflexivity.
Qed.

Lemma not_present_None (d : gmap string content) status id :
  ~ present base d status id <-> mapping d status !! id = None.
Proof.
  unfold present. rewrite <- eq_None_not_Some. reflexivity.
Qed.

(** C1: when the identifier is in at most one collection, each
    transition completes and leaves it in at most one collection;
    when it was in the source collection, it is afterwards in the
    destination collection and not in the source collection. *)
Theorem transition_keeps_one_collection (d : gmap string content) id :
  at_most_one_collection base d id ->
  (exists d',
      markPaperAsRead base id d = (Resolved tt, d') /\
      at_most_one_collection base d' id /\
      (present base d unread id ->
       present base d' read id /\ ~ present base d' unread id)) /\
  (exists d',
      markPaperAsUnread base id d = (Resolved tt, d') /\
      at_most_one_collection base d' id /\
      (present base d read id ->
       present base d' unread id /\ ~ present base d' read id)).
Proof.
  intros Hone. split.
  - destruct (mapping d unread !! id) as [meta|] eqn:Hu.
    + destruct (markPaperAsRead_present id d meta Hu)
        as (d' & Hrun & Hsrc & Hdst & _).
      exists d'. split; [exact Hrun|].
      assert (Hgone : ~ present base d' unread id).
      { apply not_present_None. rewrite Hsrc. apply lookup_delete_eq. }
      split; [intros [Hp _]; exact (Hgone Hp)|].
      intros _. split; [|exact Hgone].
      unfold present. rewrite Hdst, lookup_insert_eq. eauto.
    + exists d. split; [apply markPaperAsRead_absent; exact Hu|].
      split; [exact Hone|].
      intros [meta Hp]. congruence.
  - destruct (mapping d read !! id) as [meta|] eqn:Hr.
    + destruct (markPaperAsUnread_present id d meta Hr)
        as (d' & Hrun & Hsrc & Hdst & _).
      exists d'. split; [exact Hrun|].
      assert (Hgone : ~ present base d' read id).
      { apply not_present_None. rewrite Hsrc. apply lookup_delete_eq. }
      split; [intros [_ Hp]; exact (Hgone Hp)|].
      intros _. split; [|exact Hgone].
      unfold present. rewrite Hdst, lookup_insert_eq. eauto.
    + exists d. split; [apply markPaperAsUnread_absent; exact Hr|].
      split; [exact Hone|].
      intros [meta Hp]. congruence.
Qed.


(** C3: [markPaperAsRead] and then [markPaperAsUnread] on an
    identifier of the unread collection put it back: the unread
    mapping is the original one, the record of the identifier is the
    original record (in particular its [downloadedAt] and [fileSize]),
    the identifier is not in the read collection, and a PDF that was
    in the unread directory is there again. *)
Theorem read_then_unread_restores (d : gmap string content) id meta :
  mapping d unread !! id = Some meta ->
  exists d1 d2,
    markPaperAsRead base id d = (Resolved tt, d1) /\
    markPaperAsUnread base id d1 = (Resolved tt, d2) /\
    mapping d2 unread = mapping d unread /\
    mapping d2 unread !! id = Some meta /\
    ~ present base d2 read id /\
    (forall meta2,
        mapping d2 unread !! id = Some meta2 ->
        meta2 = meta /\
        downloadedAt meta2 = downloadedAt meta /\
        fileSize meta2 = fileSize meta) /\
    (is_Some (d !! pdf id unread) ->
     d2 !! pdf id unread = d !! pdf id unread /\ d2 !! pdf id read = None).
Proof.
  intros Hu.
  destruct (markPaperAsRead_present id d meta Hu)
    as (d1 & Hrun1 & Hsrc1 & Hdst1 & Hpdf1).
  assert (Hr1 : mapping d1 read !! id = Some meta)
    by (rewrite Hdst1; apply lookup_insert_eq).
  destruct (markPaperAsUnread_present id d1 meta Hr1)
    as (d2 & Hrun2 & Hsrc2 & Hdst2 & Hpdf2).
  exists d1, d2. split; [exact Hrun1|]. split; [exact Hrun2|].
  assert (Hsame : mapping d2 unread = mapping d unread).
  { rewrite Hdst2, Hsrc1, insert_delete_eq. apply insert_id. exact Hu. }
  split; [exact Hsame|]. split; [rewrite Hsame; exact Hu|].
  split; [apply not_present_None; rewrite Hsrc2; apply lookup_delete_eq|].
  split.
  - intros meta2 H2. rewrite Hsame, Hu in H2. injection H2 as <-.
    repeat split.
  - intros [c Hc].
    assert (Hur : pdf id unread <> pdf id read) by apply pdf_unread_not_read.
    assert (H1r : d1 !! pdf id read = Some c).
    { rewrite Hpdf1 by apply pdf_not_metadata.
      rewrite movePdf_disk, Hc, lookup_delete_ne, lookup_insert_eq by congruence.
      reflexivity. }
    rewrite !Hpdf2 by apply pdf_not_metadata.
    rewrite movePdf_disk, H1r. split.
    + rewrite lookup_delete_ne, lookup_insert_eq by congruence.
      symmetry. exact Hc.
    + apply lookup_delete_eq.
Qed.

Lemma deleteLocalPaper_spec id (d : gmap string content) :
  exists d',
    deleteLocalPaper base id d = (Resolved tt, d') /\
    mapping d' unread !! id = None /\
    (present base d unread id -> mapping d' read = mapping d read) /\
    (~ present base d unread id -> mapping d' read !! id = None) /\
    (~ present base d unread id -> ~ present base d read id -> d' = d).
Proof.
  unfold deleteLocalPaper.
  destruct (mapping d unread !! id) as [meta|] eqn:Hu.
  - eexists. split; [apply deleteLocalPaper_for_here; eauto|].
    rewrite !mapping_after_delete.
    destruct (decide (unread = unread)) as [_|]; [|congruence].
    destruct (decide (read = unread)) as [|_]; [congruence|].
    split; [apply lookup_delete_eq|].
    split; [reflexivity|].
    split; intros Hn; exfalso; apply Hn; unfold present; rewrite Hu; eauto.
  - rewrite (deleteLocalPaper_for_next _ _ _ _ Hu).
    destruct (mapping d read !! id) as [meta|] eqn:Hr.
    + eexists. split; [apply deleteLocalPaper_for_here; eauto|].
      rewrite !mapping_after_delete.
      destruct (decide (unread = read)) as [|_]; [congruence|].
      destruct (decide (read = read)) as [_|]; [|congruence].
      split; [exact Hu|].
      split; [intros [x Hx]; congruence|].
      split; [intros _; apply lookup_delete_eq|].
      intros _ Hn. exfalso. apply Hn. unfold present. rewrite Hr. eauto.
    + rewrite (deleteLocalPaper_for_next _ _ _ _ Hr). cbn [deleteLocalPaper_for].
      exists d. split; [reflexivity|]. split; [exact Hu|].
      split; [reflexivity|]. split; [intros _; exact Hr|reflexivity].
Qed.


(** When the identifier is in at most one collection, the second
    deletion changes nothing. *)
Lemma deleteLocalPaper_second_noop (d : gmap string content) id :
  at_most_one_collection base d id ->
  exists d1,
    deleteLocalPaper base id d = (Resolved tt, d1) /\
    deleteLocalPaper base id d1 = (Resolved tt, d1).
Proof.
  intros Hone.
  destruct (deleteLocalPaper_spec id d) as (d1 & Hrun1 & Hu1 & Hr1 & Hr1' & _).
  destruct (deleteLocalPaper_spec id d1) as (d2 & Hrun2 & _ & _ & _ & Hsame).
  exists d1. split; [exact Hrun1|].
  rewrite Hrun2. f_equal. apply Hsame.
  - apply not_present_None. exact Hu1.
  - destruct (mapping d unread !! id) as [meta|] eqn:Hu.
    + assert (Hp : present base d unread id) by (unfold present; rewrite Hu; eauto).
      unfold present. rewrite (Hr1 Hp). intros Hr. exact (Hone (conj Hp Hr)).
    + apply not_present_None. apply Hr1'. apply not_present_None. exact Hu.
Qed.

(** C8: reading a collection's metadata never rejects and leaves the
    disk as it is; a missing file and a file that does not parse give
    the empty mapping; and whatever error [fs.promises.readFile]
    rejects with, the body of [readMetadataFile] resolves with the
    empty mapping. *)
Theorem readMetadataFile_fails_open status :
  (forall d : gmap string content,
      exists m, readMetadataFile base status d = (Resolved m, d)) /\
  (forall d : gmap string content,
      d !! mp status = None ->
      readMetadataFile base status d = (Resolved ∅, d)) /\
  (forall (d : gmap string content) rawData,
      d !! mp status = Some rawData -> JSON_parse rawData = None ->
      readMetadataFile base status d = (Resolved ∅, d)) /\
  (forall (readFile : Async content) e (d d' : gmap string content),
      readFile d = (Rejected e, d') ->
      readMetadataFile_body readFile d = (Resolved ∅, d')) /\
  (forall (readFile : Async content) (d : gmap string content),
      exists m d', readMetadataFile_body readFile d = (Resolved m, d')).
Proof.
  split; [intros d; eexists; apply readMetadataFile_eq|].
  split; [|split; [|split]].
  - intros d H. rewrite readMetadataFile_eq, mapping_lookup, H. reflexivity.
  - intros d rawData H Hparse.
    rewrite readMetadataFile_eq, mapping_lookup, H.
    destruct rawData; [reflexivity|discriminate Hparse].
  - intros readFile e d d' H. unfold readMetadataFile_body. run.
    rewrite H. reflexivity.
  - intros readFile d. unfold readMetadataFile_body. run.
    destruct (readFile d) as [[c|e] d']; [|eauto].
    destruct (JSON_parse c); eauto.
Qed.

(** The silent no-op of C9, on the identifiers for which
    [metadata[id]] is a membership test: for an identifier that names
    no member of [Object.prototype] and is in neither collection's
    mapping, every mutation keyed by it resolves and leaves the whole
    disk (both metadata files and all PDFs) as it was. *)
Theorem mutations_absent_noop (d : gmap string content) id :
  Object_prototype_member id = false ->
  ~ present base d unread id -> ~ present base d read id ->
  markPaperAsRead base id d = (Resolved tt, d) /\
  markPaperAsUnread base id d = (Resolved tt, d) /\
  deleteLocalPaper base id d = (Resolved tt, d) /\
  (forall v, setPaperStarred base id v d = (Resolved tt, d)) /\
  (forall v, setPaperArchived base id v d = (Resolved tt, d)) /\
  (forall tag, addPaperTag base id tag d = (Resolved tt, d)) /\
  (forall tag, removePaperTag base id tag d = (Resolved tt, d)).
Proof.
  intros _ Hu Hr.
  pose proof (proj1 (not_present_None _ _ _) Hu) as Hu'.
  pose proof (proj1 (not_present_None _ _ _) Hr) as Hr'.
  split; [apply markPaperAsRead_absent; exact Hu'|].
  split; [apply markPaperAsUnread_absent; exact Hr'|].
  split.
  { unfold deleteLocalPaper.
    rewrite (deleteLocalPaper_for_next _ _ _ _ Hu'),
      (deleteLocalPaper_for_next _ _ _ _ Hr').
    reflexivity. }
  repeat split; intros; apply updatePaperMetadata_absent; assumption.
Qed.

(** C10 (as amended): for an identifier of the unread collection whose
    PDF is absent from the unread directory, [markPaperAsRead]
    resolves and moves the record from the unread to the read
    mapping; no PDF is written: every path other than the two
    metadata files holds what it held, so the unread directory still
    has no PDF of that name and the read directory has one exactly
    when it had one before. *)
Theorem markPaperAsRead_missing_pdf (d : gmap string content) id meta :
  mapping d unread !! id = Some meta ->
  d !! pdf id unread = None ->
  exists d',
    markPaperAsRead base id d = (Resolved tt, d') /\
    ~ present base d' unread id /\
    mapping d' read !! id = Some meta /\
    (forall p, p <> mp unread -> p <> mp read -> d' !! p = d !! p) /\
    d' !! pdf id unread = None /\
    d' !! pdf id read = d !! pdf id read /\
    (d !! pdf id read = None -> d' !! pdf id read = None).
Proof.
  intros Hu Hpdf.
  destruct (markPaperAsRead_present id d meta Hu)
    as (d' & Hrun & Hsrc & Hdst & Hframe).
  assert (Hsame : forall p, p <> mp unread -> p <> mp read -> d' !! p = d !! p).
  { intros p H1 H2. rewrite (Hframe p H1 H2), movePdf_disk, Hpdf. reflexivity. }
  exists d'. split; [exact Hrun|].
  split; [apply not_present_None; rewrite Hsrc; apply lookup_delete_eq|].
  split; [rewrite Hdst; apply lookup_insert_eq|].
  split; [exact Hsame|].
  assert (Hr : d' !! pdf id read = d !! pdf id read)
    by (apply Hsame; apply pdf_not_metadata).
  split; [rewrite Hsame by apply pdf_not_metadata; exact Hpdf|].
  split; [exact Hr|]. intros H. rewrite Hr. exact H.
Qed.
End Store.

(** *** The properties on the sample disks *)

Import LocalPapersSamples.

Lemma sample_present_unread : present home unread_paper_disk unread paper_id.
Proof. exists paper_meta. vm_compute. reflexivity. Defined.

Lemma sample_one_collection : at_most_one_collection home unread_paper_disk paper_id.
Proof. intros [_ [meta H]]. vm_compute in H. discriminate H. Defined.

Lemma transition_keeps_one_collection_witness :
  at_most_one_collection home unread_paper_disk paper_id /\
  exists d',
    markPaperAsRead home paper_id unread_paper_disk = (Resolved tt, d') /\
    at_most_one_collection home d' paper_id /\
    present home d' read paper_id.
Proof.
  split; [exact sample_one_collection|].
  destruct (transition_keeps_one_collection home unread_paper_disk paper_id
              sample_one_collection) as [(d' & Hrun & Hone & Hmoved) _].
  exists d'. split; [exact Hrun|]. split; [exact Hone|].
  exact (proj1 (Hmoved sample_present_unread)).
Defined.


Lemma read_then_unread_restores_witness :
  exists d1 d2,
    markPaperAsRead home paper_id unread_paper_disk = (Resolved tt, d1) /\
    markPaperAsUnread home paper_id d1 = (Resolved tt, d2) /\
    mapping home d2 unread !! paper_id = Some paper_meta /\
    d2 !! getPaperFilePath home paper_id unread = Some (Raw "%PDF-1.7").
Proof.
  assert (Hu : mapping home unread_paper_disk unread !! paper_id = Some paper_meta)
    by (vm_compute; reflexivity).
  destruct (read_then_unread_restores home unread_paper_disk paper_id paper_meta Hu)
    as (d1 & d2 & Hrun1 & Hrun2 & _ & Hback & _ & _ & Hpdf).
  exists d1, d2. split; [exact Hrun1|]. split; [exact Hrun2|].
  split; [exact Hback|].
  assert (Hfile : unread_paper_disk !! getPaperFilePath home paper_id unread
                  = Some (Raw "%PDF-1.7")) by (vm_compute; reflexivity).
  rewrite <- Hfile. apply Hpdf. rewrite Hfile. eauto.
Defined.

Lemma readMetadataFile_fails_open_witness :
  readMetadataFile home read unread_paper_disk = (Resolved ∅, unread_paper_disk) /\
  readMetadataFile home unread
    (<[metadataPath home unread := Raw "{ not json"]> unread_paper_disk) =
    (Resolved ∅, <[metadataPath home unread := Raw "{ not json"]> unread_paper_disk) /\
  readMetadataFile_body (throw (SystemError EACCES)) unread_paper_disk =
    (Resolved ∅, unread_paper_disk).
Proof.
  destruct (readMetadataFile_fails_open home read) as (_ & Hmissing & _).
  destruct (readMetadataFile_fails_open home unread) as (_ & _ & Hcorrupt & Herr & _).
  split; [apply Hmissing; vm_compute; reflexivity|].
  split.
  - apply (Hcorrupt _ (Raw "{ not json")); [|reflexivity].
    apply lookup_insert_eq.
  - apply (Herr _ (SystemError EACCES)). reflexivity.
Defined.

Lemma mutations_absent_noop_witness :
  markPaperAsRead home "0000.00000" unread_paper_disk = (Resolved tt, unread_paper_disk) /\
  deleteLocalPaper home "0000.00000" unread_paper_disk = (Resolved tt, unread_paper_disk) /\
  addPaperTag home "0000.00000" "logic" unread_paper_disk = (Resolved tt, unread_paper_disk).
Proof.
  assert (Hu : ~ present home unread_paper_disk unread "0000.00000")
    by (intros [meta H]; vm_compute in H; discriminate H).
  assert (Hr : ~ present home unread_paper_disk read "0000.00000")
    by (intros [meta H]; vm_compute in H; discriminate H).
  destruct (mutations_absent_noop home unread_paper_disk "0000.00000" eq_refl Hu Hr)
    as (H1 & _ & H3 & _ & _ & H6 & _).
  split; [exact H1|]. split; [exact H3|exact (H6 "logic"%string)].
Defined.

Lemma markPaperAsRead_missing_pdf_witness :
  exists d',
    markPaperAsRead home paper_id missing_pdf_disk = (Resolved tt, d') /\
    ~ present home d' unread paper_id /\
    mapping home d' read !! paper_id = Some paper_meta /\
    d' !! getPaperFilePath home paper_id unread = None /\
    d' !! getPaperFilePath home paper_id read = None.
Proof.
  assert (Hu : mapping home missing_pdf_disk unread !! paper_id = Some paper_meta)
    by (vm_compute; reflexivity).
  assert (Hpdf : missing_pdf_disk !! getPaperFilePath home paper_id unread = None)
    by (vm_compute; reflexivity).
  destruct (markPaperAsRead_missing_pdf home missing_pdf_disk paper_id paper_meta
              Hu Hpdf) as (d' & Hrun & Hgone & Hmoved & _ & Hsrc & _ & Hdst).
  exists d'. split; [exact Hrun|]. split; [exact Hgone|]. split; [exact Hmoved|].
  split; [exact Hsrc|]. apply Hdst. vm_compute. reflexivity.
Defined.

(** The record is in the unread collection and the unread directory
    has no PDF for it, yet after [markPaperAsRead] a PDF of that name
    exists in the read directory: the one that was there before. *)
Lemma markPaperAsRead_stray_destination_pdf :
  present home interrupted_move_disk unread paper_id /\
  interrupted_move_disk !! getPaperFilePath home paper_id unread = None /\
  (markPaperAsRead home paper_id interrupted_move_disk).1 = Resolved tt /\
  (markPaperAsRead home paper_id interrupted_move_disk).2
    !! getPaperFilePath home paper_id read = Some (Raw "%PDF-1.7").
Proof.
  split; [exists paper_meta; vm_compute; reflexivity|].
  repeat split; vm_compute; reflexivity.
Qed.
End LocalPapersFacts.

(** ** Conversion cache *)

Module DoclingFacts.
Import Node Effects Docling StringFacts.

Ltac run :=
  unfold await, resolve, throw, try_catch, tryCatch,
    fs_existsSync, fs_readFileSync, fs_writeFileSync, fs_statSync,
    fs_rmSync, fs_mkdirSync in *.

Section Cache.
Variable cwd : string.
Variable path_normalize : string -> string.
Variable path_basename : string -> string.

Local Abbreviation INDEX := (CACHE_METADATA_FILE cwd).
Local Abbreviation persisted := (persisted_cache cwd).
Local Abbreviation temp := (tempFilePath_of cwd path_basename).
Local Abbreviation saveCache := (Docling.saveCache cwd).
Local Abbreviation initializeCache := (Docling.initializeCache cwd).
Local Abbreviation convertAndInsert := (Docling.convertAndInsert cwd path_basename).
Local Abbreviation pdfToMarkdown :=
  (Docling.pdfToMarkdown cwd path_normalize path_basename).

Lemma temp_not_index run normalizedPath : temp run normalizedPath <> INDEX.
Proof.
  unfold tempFilePath_of, CACHE_METADATA_FILE, path_join. intros H.
  apply (inj (String.app _)) in H. apply (inj (String.app "/")) in H.
  rewrite !append_assoc in H. discriminate H.
Qed.

Lemma saveCache_eq cache (d : gmap string node) :
  saveCache cache d =
  (Resolved tt,
   match d !! INDEX with
   | Some (Directory _) => d
   | _ => <[INDEX := File (CacheJson cache)]> d
   end).
Proof.
  unfold Docling.saveCache. run.
  destruct (d !! INDEX) as [[|]|]; reflexivity.
Qed.

Lemma persisted_written cache (d : gmap string node) :
  persisted (<[INDEX := File (CacheJson cache)]> d) = cache.
Proof. unfold persisted_cache. rewrite lookup_insert_eq. reflexivity. Qed.

Lemma persisted_frame (d d' : gmap string node) :
  d' !! INDEX = d !! INDEX -> persisted d' = persisted d.
Proof. unfold persisted_cache. intros ->. reflexivity. Qed.

(** After [saveCache], the index holds the saved list, or nothing
    that parses when the write was refused. *)
Lemma persisted_saveCache cache (d : gmap string node) :
  persisted (saveCache cache d).2 = cache \/
  persisted (saveCache cache d).2 = [].
Proof.
  rewrite saveCache_eq. cbn [snd].
  destruct (d !! INDEX) as [[t|files]|] eqn:E.
  - left. apply persisted_written.
  - right. unfold persisted_cache. rewrite E. reflexivity.
  - left. apply persisted_written.
Qed.

Lemma initializeCache_eq (d : gmap string node) :
  initializeCache d =
  (Resolved (validated d (persisted d)),
   match d !! INDEX with
   | Some (File (CacheJson _)) =>
       <[INDEX := File (CacheJson (validated d (persisted d)))]> d
   | _ => d
   end).
Proof.
  unfold Docling.initializeCache, Docling.saveCache, persisted_cache, validated.
  run. unfold exists_on at 1 2.
  destruct (d !! CACHE_DIR cwd); cbn;
    destruct (d !! INDEX) as [[[s|c]|files]|] eqn:E;
    repeat (progress (cbn; rewrite ?E)); reflexivity.
Qed.

Lemma cleanup_eq p (d : gmap string node) :
  cleanup p d = (Resolved tt, delete p d).
Proof.
  unfold cleanup. run. unfold exists_on.
  destruct (d !! p) eqn:E; [reflexivity|].
  rewrite delete_id by exact E. reflexivity.
Qed.

Lemma readMarkdown_disk p (d : gmap string node) : (readMarkdown p d).2 = d.
Proof.
  unfold readMarkdown. run.
  destruct (d !! p) as [[t|files]|] eqn:E; cbn; rewrite ?E; try reflexivity.
  destruct (List.find _ files) as [[? ?]|]; reflexivity.
Qed.

(** The disk once the external command has run. *)
Lemma exec_docling_disk run output (d : gmap string node) :
  (exec_docling run output d).2 =
  match docling_output run with
  | Some n => <[output := n]> d
  | None => d
  end.
Proof. reflexivity. Qed.

Lemma exec_docling_index run normalizedPath (d : gmap string node) :
  (exec_docling run (temp run normalizedPath) d).2 !! INDEX = d !! INDEX.
Proof.
  rewrite exec_docling_disk. destruct (docling_output run); [|reflexivity].
  apply lookup_insert_ne, temp_not_index.
Qed.

Lemma convertAndInsert_eq run normalizedPath cache (d : gmap string node) :
  convertAndInsert run normalizedPath cache d =
  let tempFilePath := temp run normalizedPath in
  let d1 := (exec_docling run tempFilePath d).2 in
  match (if docling_exit_ok run then (readMarkdown tempFilePath d1).1
         else Rejected ExecError)
  with
  | Rejected e => (Rejected e, delete tempFilePath d1)
  | Resolved data =>
      let pdfCache :=
        {| pdfPath := normalizedPath; outputPath := tempFilePath;
           timestamp := Date_now run |} :: cache in
      if Nat.ltb MAX_CACHE_SIZE (length pdfCache) then
        (Resolved data,
         (saveCache (removelast pdfCache)
            match last pdfCache with
            | Some evictedEntry => delete (outputPath evictedEntry) d1
            | None => d1
            end).2)
      else (Resolved data, (saveCache pdfCache d1).2)
  end.
Proof.
  cbv zeta. unfold Docling.convertAndInsert.
  unfold tryCatch, await at 1 2.
  unfold exec_docling at 1. cbn [snd].
  set (d1 := match docling_output run with
             | Some n => <[temp run normalizedPath := n]> d
             | None => d
             end).
  rewrite exec_docling_disk. fold d1.
  destruct (docling_exit_ok run).
  - pose proof (readMarkdown_disk (temp run normalizedPath) d1) as Hd.
    destruct (readMarkdown (temp run normalizedPath) d1) as [[data|e] d2].
    + cbn in Hd. subst d2. cbn [fst].
      set (pdfCache := _ :: cache).
      destruct (Nat.ltb MAX_CACHE_SIZE (length pdfCache)).
      * unfold await, resolve.
        destruct (last pdfCache) as [ev|].
        -- rewrite cleanup_eq, saveCache_eq. reflexivity.
        -- rewrite saveCache_eq. reflexivity.
      * unfold await, resolve. rewrite saveCache_eq. reflexivity.
    + cbn in Hd. subst d2. cbn [fst].
      unfold await, throw. rewrite cleanup_eq. reflexivity.
  - unfold await, throw. rewrite cleanup_eq. reflexivity.
Qed.

Lemma initializeCache_persisted (d : gmap string node) :
  persisted (initializeCache d).2 = validated d (persisted d).
Proof.
  rewrite initializeCache_eq. cbn [snd].
  destruct (d !! INDEX) as [[[s|c]|files]|] eqn:E.
  - unfold persisted_cache. rewrite E. reflexivity.
  - apply persisted_written.
  - unfold persisted_cache. rewrite E. reflexivity.
  - unfold persisted_cache. rewrite E. reflexivity.
Qed.

Lemma initializeCache_exists (d : gmap string node) p :
  exists_on d p = true -> exists_on (initializeCache d).2 p = true.
Proof.
  rewrite initializeCache_eq. cbn [snd]. unfold exists_on.
  destruct (d !! INDEX) as [[[s|c]|files]|] eqn:E; try exact id.
  destruct (decide (INDEX = p)) as [<-|Hne].
  - rewrite lookup_insert_eq. reflexivity.
  - rewrite lookup_insert_ne by exact Hne. exact id.
Qed.

Lemma pdfToMarkdown_eq run p (d : gmap string node) :
  pdfToMarkdown run p d =
  let loaded := validated d (persisted d) in
  let d1 := (initializeCache d).2 in
  match list_find (fun entry => path_normalize (pdfPath entry) = path_normalize p)
          loaded with
  | Some (cacheIndex, cachedEntry) =>
      let d2 :=
        (saveCache
           (with_timestamp cachedEntry (Date_now run) :: delete cacheIndex loaded)
           d1).2 in
      ((readMarkdown (outputPath cachedEntry) d2).1, d2)
  | None => convertAndInsert run (path_normalize p) loaded d1
  end.
Proof.
  cbv zeta. unfold Docling.pdfToMarkdown. unfold await at 1.
  rewrite initializeCache_eq. cbn [snd].
  set (loaded := validated d (persisted d)).
  set (d1 := match d !! INDEX with
             | Some (File (CacheJson _)) => _
             | _ => d
             end).
  destruct (list_find _ loaded) as [[i e]|] eqn:Hfind; [|reflexivity].
  apply list_find_Some in Hfind as (Hi & _ & _).
  assert (Hex : exists_on d1 (outputPath e) = true).
  { pose proof (initializeCache_exists d (outputPath e)) as H.
    rewrite initializeCache_eq in H. apply H.
    apply list_elem_of_lookup_2, list_elem_of_In in Hi.
    unfold loaded, validated in Hi. apply filter_In in Hi. apply Hi. }
  unfold await, fs_existsSync. rewrite Hex, saveCache_eq. cbn [snd].
  set (d2 := match d1 !! INDEX with
             | Some (Directory _) => d1
             | _ => _
             end).
  pose proof (readMarkdown_disk (outputPath e) d2) as Hd.
  change (outputPath (with_timestamp e (Date_now run))) with (outputPath e).
  destruct (readMarkdown (outputPath e) d2) as [r d3].
  cbn in Hd |- *. subst d3. reflexivity.
Qed.

(** *** The index stays well kept *)

Lemma well_kept_saveCache cache (d : gmap string node) :
  length cache <= MAX_CACHE_SIZE ->
  Forall (fun entry => outputPath entry <> INDEX) cache ->
  well_kept cwd (saveCache cache d).2.
Proof.
  intros Hlen Hout. unfold well_kept.
  destruct (persisted_saveCache cache d) as [-> | ->].
  - split; assumption.
  - split; [cbn; lia|constructor].
Qed.

Lemma Forall_validated (P : CacheEntry -> Prop) (d : gmap string node) cache :
  Forall P cache -> Forall P (validated d cache).
Proof.
  rewrite !Forall_forall. intros H e He.
  apply list_elem_of_In, filter_In in He. apply H, list_elem_of_In, He.
Qed.

Lemma validated_well_kept (d : gmap string node) :
  well_kept cwd d ->
  length (validated d (persisted d)) <= MAX_CACHE_SIZE /\
  Forall (fun entry => outputPath entry <> INDEX) (validated d (persisted d)).
Proof.
  intros [Hlen Hout]. split.
  - etransitivity; [apply filter_length_le|exact Hlen].
  - apply Forall_validated, Hout.
Qed.

(** A non-empty list has a back entry. *)
Lemma back_entry (entry : CacheEntry) cache :
  exists front back,
    entry :: cache = front ++ [back] /\
    last (entry :: cache) = Some back /\
    removelast (entry :: cache) = front /\
    length front = length cache.
Proof.
  destruct (exists_last (l := entry :: cache)) as (front & back & E);
    [discriminate|].
  exists front, back. rewrite E.
  split; [reflexivity|]. split; [apply last_snoc|].
  split; [apply removelast_last|].
  apply (f_equal length) in E. rewrite length_app in E. cbn in E. lia.
Qed.

Lemma pdfToMarkdown_well_kept run p (d : gmap string node) :
  well_kept cwd d -> well_kept cwd (pdfToMarkdown run p d).2.
Proof.
  intros Hd. destruct (validated_well_kept d Hd) as [Hlen Hout].
  rewrite pdfToMarkdown_eq. cbv zeta.
  set (loaded := validated d (persisted d)) in *.
  destruct (list_find _ loaded) as [[i e]|] eqn:Hfind.
  - cbn [snd]. apply list_find_Some in Hfind as (Hi & _ & _).
    apply well_kept_saveCache.
    + cbn [length]. rewrite length_delete by eauto.
      apply lookup_lt_Some in Hi. lia.
    + constructor.
      * change (outputPath e <> INDEX).
        rewrite Forall_forall in Hout. apply Hout.
        apply list_elem_of_lookup_2 in Hi. exact Hi.
      * apply Forall_delete, Hout.
  - rewrite convertAndInsert_eq. cbv zeta.
    set (tempFilePath := temp run (path_normalize p)).
    set (d1 := (exec_docling run tempFilePath (initializeCache d).2).2).
    set (new := {| pdfPath := path_normalize p; outputPath := tempFilePath;
                   timestamp := Date_now run |}).
    assert (Hnew : Forall (fun entry => outputPath entry <> INDEX) (new :: loaded))
      by (constructor; [apply temp_not_index|exact Hout]).
    destruct (if docling_exit_ok run then _ else _) as [data|err].
    + destruct (Nat.ltb_spec MAX_CACHE_SIZE (length (new :: loaded))) as [Hover|Hfit];
        cbn [snd].
      * destruct (back_entry new loaded) as (front & back & E & _ & -> & Hfront).
        apply well_kept_saveCache; [lia|].
        rewrite E in Hnew. apply Forall_app in Hnew. apply Hnew.
      * apply well_kept_saveCache; [exact Hfit|exact Hnew].
    + cbn [snd]. unfold well_kept.
      rewrite (persisted_frame (initializeCache d).2).
      * rewrite initializeCache_persisted. fold loaded. split; assumption.
      * rewrite lookup_delete_ne by apply temp_not_index.
        apply exec_docling_index.
Qed.

Lemma run_calls_well_kept calls (d : gmap string node) :
  well_kept cwd d ->
  well_kept cwd (run_calls cwd path_normalize path_basename calls d).
Proof.
  revert d. induction calls as [|[run p] calls IH]; intros d Hd; cbn [run_calls].
  - exact Hd.
  - apply IH, pdfToMarkdown_well_kept, Hd.
Qed.

Lemma fresh_well_kept (d : gmap string node) :
  d !! INDEX = None -> well_kept cwd d.
Proof.
  intros H. unfold well_kept, persisted_cache. rewrite H.
  split; [cbn; lia|constructor].
Qed.

Lemma persisted_nonempty (d : gmap string node) :
  persisted d <> [] -> exists cache, d !! INDEX = Some (File (CacheJson cache)).
Proof.
  unfold persisted_cache.
  destruct (d !! INDEX) as [[[s|c]|files]|]; cbn; try congruence. eauto.
Qed.

(** After the rest of [pdfToMarkdown] has run on a miss, the index
    holds the inserted entry and entries that were loaded, nothing
    else. *)
Lemma convertAndInsert_entries run normalizedPath cache (d : gmap string node) entry :
  persisted d = cache ->
  entry ∈ persisted (convertAndInsert run normalizedPath cache d).2 ->
  entry = {| pdfPath := normalizedPath;
             outputPath := temp run normalizedPath;
             timestamp := Date_now run |} \/
  entry ∈ cache.
Proof.
  intros Hd. rewrite convertAndInsert_eq. cbv zeta.
  set (new := {| pdfPath := normalizedPath; outputPath := temp run normalizedPath;
                 timestamp := Date_now run |}).
  assert (Hsaved : forall l d',
             (forall x, x ∈ l -> x ∈ new :: cache) ->
             entry ∈ persisted (saveCache l d').2 -> entry = new \/ entry ∈ cache).
  { intros l d' Hl He.
    destruct (persisted_saveCache l d') as [E|E]; rewrite E in He.
    - apply Hl, elem_of_cons in He. exact He.
    - apply elem_of_nil in He. contradiction. }
  destruct (if docling_exit_ok run then _ else _) as [data|err].
  - destruct (Nat.ltb MAX_CACHE_SIZE (length (new :: cache))); cbn [snd].
    + apply Hsaved.
      destruct (back_entry new cache) as (front & back & E & _ & -> & _).
      intros x Hx. rewrite E. apply elem_of_app. left. exact Hx.
    + apply Hsaved. intros x Hx. exact Hx.
  - cbn [snd]. intros He. right.
    rewrite (persisted_frame d) in He; [rewrite Hd in He; exact He|].
    rewrite lookup_delete_ne by apply temp_not_index.
    apply exec_docling_index.
Qed.

(** C4: from a disk without cache index, after any sequence of calls
    of [pdfToMarkdown] the index holds at most [MAX_CACHE_SIZE] = 5
    entries; and when the next call misses, converts and finds the
    validated cache full, the index afterwards is the inserted entry
    followed by the cache without its back entry, whatever the
    timestamps, and the output of that back entry is no longer on
    the disk. *)
Theorem cache_bounded_lru calls (d0 : gmap string node) :
  d0 !! INDEX = None ->
  let d := run_calls cwd path_normalize path_basename calls d0 in
  length (persisted d) <= 5 /\
  forall run p data d',
    let loaded := validated d (persisted d) in
    Forall (fun entry => ~ entry_for path_normalize p entry) loaded ->
    length loaded = MAX_CACHE_SIZE ->
    pdfToMarkdown run p d = (Resolved data, d') ->
    exists front back,
      loaded = front ++ [back] /\
      persisted d' =
        inserted_entry cwd path_normalize path_basename run p :: front /\
      d' !! outputPath back = None.
Proof.
  intros Hfresh d.
  assert (Hd : well_kept cwd d)
    by (apply run_calls_well_kept, fresh_well_kept, Hfresh).
  split; [exact (proj1 Hd)|].
  intros run p data d' loaded Hmiss Hfull Hrun.
  destruct (validated_well_kept d Hd) as [_ Hout]. fold loaded in Hout.
  assert (Hindex : exists cache, d !! INDEX = Some (File (CacheJson cache))).
  { apply persisted_nonempty. intros E. unfold loaded in Hfull.
    rewrite E in Hfull. discriminate Hfull. }
  destruct Hindex as [cache Hindex].
  rewrite pdfToMarkdown_eq in Hrun. cbv zeta in Hrun. fold loaded in Hrun.
  apply (proj2 (list_find_None
           (fun entry => path_normalize (pdfPath entry) = path_normalize p)
           loaded)) in Hmiss.
  rewrite Hmiss, convertAndInsert_eq in Hrun. cbv zeta in Hrun.
  set (new := {| pdfPath := path_normalize p;
                 outputPath := temp run (path_normalize p);
                 timestamp := Date_now run |}) in Hrun.
  set (d1 := (exec_docling run (temp run (path_normalize p))
                (initializeCache d).2).2) in Hrun.
  destruct (if docling_exit_ok run then _ else _) as [data'|err];
    [|discriminate Hrun].
  assert (Hover : Nat.ltb MAX_CACHE_SIZE (length (new :: loaded)) = true)
    by (apply Nat.ltb_lt; cbn [length]; lia).
  rewrite Hover in Hrun.
  destruct (exists_last (l := loaded)) as (front & back & E).
  { intros E. rewrite E in Hfull. discriminate Hfull. }
  exists front, back. split; [exact E|].
  rewrite E in Hrun, Hout.
  change (new :: front ++ [back]) with ((new :: front) ++ [back]) in Hrun.
  rewrite last_snoc, removelast_last, saveCache_eq in Hrun.
  assert (Hback : outputPath back <> INDEX).
  { rewrite Forall_forall in Hout. apply Hout.
    apply elem_of_app. right. constructor. }
  assert (Hfile : delete (outputPath back) d1 !! INDEX
                  = Some (File (CacheJson loaded))).
  { rewrite lookup_delete_ne by exact Hback.
    unfold d1. rewrite exec_docling_index, initializeCache_eq. cbn [snd].
    rewrite Hindex, lookup_insert_eq. reflexivity. }
  rewrite Hfile in Hrun. injection Hrun as _ <-.
  split; [apply persisted_written|].
  rewrite lookup_insert_ne by congruence. apply lookup_delete_eq.
Qed.

(** C7: when the index has entries for the path and the output of
    each of them is gone from the disk, [initializeCache] drops them
    and writes the purged list to the index file; the lookup then
    misses and the conversion runs on the disk that holds the purged
    index; afterwards the index has no entry for the path other than
    a freshly inserted one, and none at all when the conversion
    failed. *)
Theorem stale_entry_purged run p (d : gmap string node) cache :
  d !! INDEX = Some (File (CacheJson cache)) ->
  Exists (entry_for path_normalize p) cache ->
  Forall (fun entry =>
            entry_for path_normalize p entry -> d !! outputPath entry = None)
    cache ->
  let purged := validated d cache in
  let d1 := <[INDEX := File (CacheJson purged)]> d in
  initializeCache d = (Resolved purged, d1) /\
  Forall (fun entry => ~ entry_for path_normalize p entry) purged /\
  persisted d1 = purged /\
  pdfToMarkdown run p d = convertAndInsert run (path_normalize p) purged d1 /\
  (forall entry,
      entry ∈ persisted (pdfToMarkdown run p d).2 ->
      entry_for path_normalize p entry ->
      entry = inserted_entry cwd path_normalize path_basename run p) /\
  (forall e,
      (pdfToMarkdown run p d).1 = Rejected e ->
      persisted (pdfToMarkdown run p d).2 = purged).
Proof.
  intros Hindex _ Hstale purged d1.
  assert (Hcache : persisted d = cache)
    by (unfold persisted_cache; rewrite Hindex; reflexivity).
  assert (Hinit : initializeCache d = (Resolved purged, d1)).
  { rewrite initializeCache_eq, Hindex, Hcache. reflexivity. }
  assert (Hpurged : Forall (fun entry => ~ entry_for path_normalize p entry) purged).
  { rewrite Forall_forall in *. intros entry He Hfor.
    apply list_elem_of_In, filter_In in He as [Hin Hex].
    apply list_elem_of_In in Hin.
    unfold exists_on in Hex. rewrite (Hstale entry Hin Hfor) in Hex.
    discriminate Hex. }
  assert (Hrun : pdfToMarkdown run p d
                 = convertAndInsert run (path_normalize p) purged d1).
  { rewrite pdfToMarkdown_eq. cbv zeta. rewrite Hcache, Hinit. cbn [snd].
    fold purged.
    rewrite (proj2 (list_find_None
               (fun entry => path_normalize (pdfPath entry) = path_normalize p)
               purged) Hpurged).
    reflexivity. }
  split; [exact Hinit|]. split; [exact Hpurged|].
  split; [apply persisted_written|]. split; [exact Hrun|]. split.
  - intros entry He Hfor. rewrite Hrun in He.
    apply convertAndInsert_entries in He; [|apply persisted_written].
    destruct He as [->|He]; [reflexivity|].
    rewrite Forall_forall in Hpurged. destruct (Hpurged entry He Hfor).
  - intros e. rewrite Hrun, convertAndInsert_eq. cbv zeta.
    destruct (if docling_exit_ok run then _ else _) as [data|err].
    + destruct (Nat.ltb _ _); discriminate.
    + intros _. cbn [snd].
      rewrite (persisted_frame d1); [apply persisted_written|].
      rewrite lookup_delete_ne by apply temp_not_index.
      apply exec_docling_index.
Qed.
End Cache.

(** *** The properties on the sample disks *)

Import DoclingSamples.

Lemma five_calls_loaded :
  validated (run_calls cwd normalize basename five_calls ∅)
    (persisted_cache cwd (run_calls cwd normalize basename five_calls ∅))
  = five_entries.
Proof. vm_compute. reflexivity. Defined.

Lemma cache_bounded_lru_witness :
  let d := run_calls cwd normalize basename five_calls ∅ in
  length (persisted_cache cwd d) <= 5 /\
  exists data d',
    pdfToMarkdown cwd normalize basename (converts 50 "f") "/papers/6.pdf" d
    = (Resolved data, d') /\
    persisted_cache cwd d' =
      [ sample_entry 50 "f" "6.pdf"; sample_entry 100 "e" "5.pdf";
        sample_entry 200 "d" "4.pdf"; sample_entry 300 "c" "3.pdf";
        sample_entry 400 "b" "2.pdf" ] /\
    d' !! outputPath (sample_entry 500 "a" "1.pdf") = None.
Proof.
  intros d.
  assert (Hfresh : (∅ : gmap string node) !! CACHE_METADATA_FILE cwd = None)
    by (vm_compute; reflexivity).
  destruct (cache_bounded_lru cwd normalize basename five_calls ∅ Hfresh)
    as [Hlen Hevict].
  split; [exact Hlen|].
  assert (Hdata : (pdfToMarkdown cwd normalize basename (converts 50 "f")
                     "/papers/6.pdf" d).1 = Resolved (Plain "# converted"))
    by (vm_compute; reflexivity).
  destruct (pdfToMarkdown cwd normalize basename (converts 50 "f")
              "/papers/6.pdf" d) as [r d'] eqn:Hrun.
  cbn [fst] in Hdata. subst r.
  exists (Plain "# converted"), d'. split; [reflexivity|].
  destruct (Hevict (converts 50 "f") "/papers/6.pdf"%string
              (Plain "# converted") d')
    as (front & back & E & Hindex & Hgone).
  - rewrite five_calls_loaded.
    repeat constructor; intros H; vm_compute in H; discriminate H.
  - rewrite five_calls_loaded. reflexivity.
  - exact Hrun.
  - rewrite five_calls_loaded in E.
    change five_entries
      with ([ sample_entry 100 "e" "5.pdf"; sample_entry 200 "d" "4.pdf";
              sample_entry 300 "c" "3.pdf"; sample_entry 400 "b" "2.pdf" ]
              ++ [sample_entry 500 "a" "1.pdf"]) in E.
    apply app_inj_tail in E as [<- <-].
    split; [exact Hindex|exact Hgone].
Defined.

Lemma stale_entry_purged_witness :
  initializeCache cwd stale_disk =
    (Resolved [], <[CACHE_METADATA_FILE cwd := File (CacheJson [])]> stale_disk) /\
  pdfToMarkdown cwd normalize basename (converts 600 "g") "/papers/1.pdf" stale_disk =
    convertAndInsert cwd basename (converts 600 "g") "/papers/1.pdf" []
      (<[CACHE_METADATA_FILE cwd := File (CacheJson [])]> stale_disk) /\
  persisted_cache cwd
    (pdfToMarkdown cwd normalize basename (converts 600 "g") "/papers/1.pdf"
       stale_disk).2 = [sample_entry 600 "g" "1.pdf"].
Proof.
  destruct (stale_entry_purged cwd normalize basename (converts 600 "g")
              "/papers/1.pdf" stale_disk [stale_entry])
    as (Hinit & _ & _ & Hrun & _).
  - vm_compute. reflexivity.
  - constructor. reflexivity.
  - constructor; [|constructor]. intros _. vm_compute. reflexivity.
  - split; [exact Hinit|]. split; [exact Hrun|].
    vm_compute. reflexivity.
Defined.
End DoclingFacts.

(** ** Local paper storage: initialization, listing, flags and tags *)

Module LocalPapersMoreFacts.
Import Node Constants Effects LocalPapers StringFacts LocalPapersFacts.

Section Store.
Variable base : string.
Local Abbreviation mp := (metadataPath base).
Local Abbreviation pdf := (getPaperFilePath base).
Local Abbreviation mapping := (LocalPapers.mapping base).
Local Abbreviation locate := (LocalPapers.locate base).

Lemma mp_ne status : mp status <> mp (other status).
Proof. intros E. apply metadataPath_inj in E. destruct status; discriminate E. Qed.

Lemma ensureMetadataFile_eq p (d : gmap string content) :
  ensureMetadataFile p d =
  (Resolved tt,
   match d !! p with
   | Some (MetadataJson _) => d
   | _ => <[p := empty_object]> d
   end).
Proof.
  unfold ensureMetadataFile, fs_access. run.
  destruct (d !! p) as [[data|m]|] eqn:E; cbn.
  - rewrite E. cbn. destruct (all_white_space data); reflexivity.
  - rewrite E. reflexivity.
  - rewrite lookup_insert_eq. reflexivity.
Qed.

Lemma initializeLocalFileStorage_eq (d : gmap string content) :
  initializeLocalFileStorage base d =
  (Resolved tt,
   (ensureMetadataFile (mp read) (ensureMetadataFile (mp unread) d).2).2).
Proof.
  unfold initializeLocalFileStorage, ensureDirectories. run.
  change (path_join (unread_paper_directory base) METADATA_FILENAME) with (mp unread).
  change (path_join (read_paper_directory base) METADATA_FILENAME) with (mp read).
  rewrite (ensureMetadataFile_eq (mp unread) d). cbn [snd].
  rewrite ensureMetadataFile_eq. reflexivity.
Qed.

Lemma ensured_lookup p (d : gmap string content) q :
  q <> p -> (ensureMetadataFile p d).2 !! q = d !! q.
Proof.
  intros Hne. rewrite ensureMetadataFile_eq. cbn [snd].
  destruct (d !! p) as [[|]|]; rewrite ?lookup_insert_ne by congruence; reflexivity.
Qed.

Lemma ensured_parses p (d : gmap string content) :
  exists m, (ensureMetadataFile p d).2 !! p = Some (MetadataJson m) /\
            m = match d !! p with Some (MetadataJson m0) => m0 | _ => ∅ end.
Proof.
  rewrite ensureMetadataFile_eq. cbn [snd].
  destruct (d !! p) as [[data|m]|] eqn:E.
  - exists ∅. rewrite lookup_insert_eq. split; reflexivity.
  - exists m. split; [exact E|reflexivity].
  - exists ∅. rewrite lookup_insert_eq. split; reflexivity.
Qed.

(** The metadata files after [initializeLocalFileStorage]. *)
Lemma initialized_files (d : gmap string content) status :
  (ensureMetadataFile (mp read) (ensureMetadataFile (mp unread) d).2).2 !! mp status
  = Some (MetadataJson (mapping d status)).
Proof.
  rewrite (mapping_lookup base d status). destruct status.
  - rewrite ensured_lookup by apply (mp_ne unread).
    destruct (ensured_parses (mp unread) d) as (m & -> & ->). reflexivity.
  - destruct (ensured_parses (mp read) (ensureMetadataFile (mp unread) d).2)
      as (m & -> & ->).
    rewrite ensured_lookup by apply (mp_ne read). reflexivity.
Qed.

(** X1: [initializeLocalFileStorage] always resolves; afterwards both
    metadata files exist and parse, each collection reads as the same
    mapping as before (a missing, blank or damaged file read as the
    empty mapping already), and no other file is touched. *)
Theorem initializeLocalFileStorage_establishes (d : gmap string content) :
  exists d',
    initializeLocalFileStorage base d = (Resolved tt, d') /\
    (forall status,
        d' !! mp status = Some (MetadataJson (mapping d status))) /\
    (forall status, mapping d' status = mapping d status) /\
    (forall p, p <> mp unread -> p <> mp read -> d' !! p = d !! p).
Proof.
  eexists. split; [apply initializeLocalFileStorage_eq|].
  split; [apply initialized_files|]. split.
  - intros status. rewrite mapping_lookup, initialized_files. reflexivity.
  - intros p Hu Hr. rewrite !ensured_lookup by congruence. reflexivity.
Qed.

(** X2: [initializeLocalFileStorage] is idempotent, and it leaves a disk
    whose two metadata files already parse exactly as it is. *)
Theorem initializeLocalFileStorage_idempotent (d : gmap string content) :
  (exists d',
      initializeLocalFileStorage base d = (Resolved tt, d') /\
      initializeLocalFileStorage base d' = (Resolved tt, d')) /\
  ((forall status, exists m, d !! mp status = Some (MetadataJson m)) ->
   initializeLocalFileStorage base d = (Resolved tt, d)).
Proof.
  assert (Hkeep : forall d0 : gmap string content,
             (forall status, exists m, d0 !! mp status = Some (MetadataJson m)) ->
             initializeLocalFileStorage base d0 = (Resolved tt, d0)).
  { intros d0 H. rewrite initializeLocalFileStorage_eq.
    destruct (H unread) as [mu Hu]. destruct (H read) as [mr Hr].
    rewrite (ensureMetadataFile_eq (mp unread) d0), Hu. cbn [snd].
    rewrite ensureMetadataFile_eq, Hr. reflexivity. }
  split; [|apply Hkeep].
  eexists. split; [apply initializeLocalFileStorage_eq|].
  apply Hkeep. intros status. eexists. apply initialized_files.
Qed.

(** *** Flags and tags *)

Lemma locate_Some (d : gmap string content) id status meta :
  locate d id = Some (status, meta) ->
  mapping d status !! id = Some meta /\
  d !! mp status = Some (MetadataJson (mapping d status)) /\
  (status = read -> mapping d unread !! id = None).
Proof.
  unfold LocalPapers.locate. intros H.
  assert (Hm : mapping d status !! id = Some meta /\
               (status = read -> mapping d unread !! id = None)).
  { destruct (mapping d unread !! id) as [mu|] eqn:Hu.
    - injection H as <- <-. split; [exact Hu|discriminate].
    - destruct (mapping d read !! id) as [mr|] eqn:Hr; [|discriminate H].
      injection H as <- <-. split; [exact Hr|reflexivity]. }
  destruct Hm as [Hm Hu]. split; [exact Hm|]. split; [|exact Hu].
  rewrite mapping_lookup in Hm |- *.
  destruct (d !! mp status) as [[data|m]|]; try (rewrite lookup_empty in Hm; discriminate Hm).
  reflexivity.
Qed.

Lemma locate_None (d : gmap string content) id :
  locate d id = None ->
  mapping d unread !! id = None /\ mapping d read !! id = None.
Proof.
  unfold LocalPapers.locate.
  destruct (mapping d unread !! id); [discriminate|].
  destruct (mapping d read !! id); [discriminate|]. split; reflexivity.
Qed.

Lemma updatePaperMetadata_found (d : gmap string content) id updateFn status meta :
  locate d id = Some (status, meta) ->
  updatePaperMetadata base id updateFn d =
  (Resolved tt,
   <[mp status := MetadataJson (<[id := updateFn meta]> (mapping d status))]> d).
Proof.
  intros H. destruct (locate_Some d id status meta H) as (Hm & _ & Hu).
  unfold updatePaperMetadata, writeMetadataFile. cbn [updatePaperMetadata_for]. run.
  rewrite readMetadataFile_eq. destruct status.
  - rewrite Hm. reflexivity.
  - rewrite (Hu eq_refl), readMetadataFile_eq, Hm. reflexivity.
Qed.

(** The record of [id] replaced in the collection that [locate] finds. *)
Lemma updated_disk (d : gmap string content) id status meta meta' :
  locate d id = Some (status, meta) ->
  let d' := <[mp status := MetadataJson (<[id := meta']> (mapping d status))]> d in
  locate d' id = Some (status, meta') /\
  mapping d' status = <[id := meta']> (mapping d status) /\
  mapping d' (other status) = mapping d (other status) /\
  (forall p, p <> mp status -> d' !! p = d !! p).
Proof.
  intros H d'. destruct (locate_Some d id status meta H) as (Hm & _ & Hu).
  assert (Hs : mapping d' status = <[id := meta']> (mapping d status))
    by apply mapping_written.
  assert (Ho : mapping d' (other status) = mapping d (other status)).
  { apply mapping_frame. unfold d'.
    rewrite lookup_insert_ne by apply mp_ne. reflexivity. }
  split; [|split; [exact Hs|split; [exact Ho|]]].
  - unfold LocalPapers.locate. destruct status.
    + rewrite Hs, lookup_insert_eq. reflexivity.
    + change unread with (other read). rewrite Ho. cbn [other].
      rewrite (Hu eq_refl), Hs, lookup_insert_eq. reflexivity.
  - intros p Hp. unfold d'. rewrite lookup_insert_ne by congruence. reflexivity.
Qed.



(** X4: setting a flag twice is the same as setting it once, and
    [setPaperStarred] and [setPaperArchived] commute: either order
    leaves the same disk, whether the identifier is found or not. *)
Theorem set_flags_commute (d : gmap string content) id a b :
  (setPaperStarred base id a (setPaperStarred base id a d).2).2
  = (setPaperStarred base id a d).2 /\
  (setPaperArchived base id b (setPaperArchived base id b d).2).2
  = (setPaperArchived base id b d).2 /\
  (setPaperArchived base id b (setPaperStarred base id a d).2).2
  = (setPaperStarred base id a (setPaperArchived base id b d).2).2.
Proof.
  unfold setPaperStarred, setPaperArchived.
  destruct (locate d id) as [[status meta]|] eqn:H.
  - assert (Hstep : forall f g,
               (updatePaperMetadata base id g
                  (updatePaperMetadata base id f d).2).2
               = <[mp status := MetadataJson (<[id := g (f meta)]> (mapping d status))]> d).
    { intros f g. rewrite (updatePaperMetadata_found d id f status meta H). cbn [snd].
      destruct (updated_disk d id status meta (f meta) H) as (Hl & Hs & _).
      rewrite (updatePaperMetadata_found _ id g status (f meta) Hl). cbn [snd].
      rewrite Hs, insert_insert_eq, insert_insert_eq. reflexivity. }
    rewrite !Hstep, !(updatePaperMetadata_found d id _ status meta H). cbn [snd].
    repeat split.
  - destruct (locate_None d id H) as [Hu Hr].
    assert (Hno : forall f, updatePaperMetadata base id f d = (Resolved tt, d))
      by (intros f; apply updatePaperMetadata_absent; assumption).
    repeat (rewrite Hno; cbn [snd]). repeat split.
Qed.














(** *** Deletion *)






(** *** Transitions *)

Lemma markPaperAsRead_moves (d : gmap string content) id meta :
  mapping d unread !! id = Some meta ->
  exists d',
    markPaperAsRead base id d = (Resolved tt, d') /\
    (forall c, d !! pdf id unread = Some c ->
               d' !! pdf id read = Some c /\ d' !! pdf id unread = None) /\
    mapping d' read !! id = Some meta /\
    (forall id', id' <> id ->
                 mapping d' unread !! id' = mapping d unread !! id' /\
                 mapping d' read !! id' = mapping d read !! id') /\
    (forall p, p <> mp unread -> p <> mp read ->
               p <> pdf id unread -> p <> pdf id read -> d' !! p = d !! p).
Proof.
  intros H.
  destruct (markPaperAsRead_present base id d meta H) as (d' & Hrun & Hsrc & Hdst & Hpdf).
  exists d'. split; [exact Hrun|].
  assert (Hur : pdf id unread <> pdf id read) by apply pdf_unread_not_read.
  split; [|split; [|split]].
  - intros c Hc. rewrite !Hpdf by apply pdf_not_metadata.
    rewrite movePdf_disk, Hc. split.
    + rewrite lookup_delete_ne, lookup_insert_eq by congruence. reflexivity.
    + apply lookup_delete_eq.
  - rewrite Hdst. apply lookup_insert_eq.
  - intros id' Hne. rewrite Hsrc, Hdst.
    rewrite lookup_delete_ne, lookup_insert_ne by congruence. split; reflexivity.
  - intros p H1 H2 H3 H4. rewrite Hpdf by assumption.
    apply movePdf_frame; assumption.
Qed.

Lemma markPaperAsUnread_moves (d : gmap string content) id meta :
  mapping d read !! id = Some meta ->
  exists d',
    markPaperAsUnread base id d = (Resolved tt, d') /\
    (forall c, d !! pdf id read = Some c ->
               d' !! pdf id unread = Some c /\ d' !! pdf id read = None) /\
    mapping d' unread !! id = Some meta /\
    (forall id', id' <> id ->
                 mapping d' unread !! id' = mapping d unread !! id' /\
                 mapping d' read !! id' = mapping d read !! id') /\
    (forall p, p <> mp unread -> p <> mp read ->
               p <> pdf id unread -> p <> pdf id read -> d' !! p = d !! p).
Proof.
  intros H.
  destruct (markPaperAsUnread_present base id d meta H) as (d' & Hrun & Hsrc & Hdst & Hpdf).
  exists d'. split; [exact Hrun|].
  assert (Hur : pdf id unread <> pdf id read) by apply pdf_unread_not_read.
  split; [|split; [|split]].
  - intros c Hc. rewrite !Hpdf by apply pdf_not_metadata.
    rewrite movePdf_disk, Hc. split.
    + rewrite lookup_delete_ne, lookup_insert_eq by congruence. reflexivity.
    + apply lookup_delete_eq.
  - rewrite Hdst. apply lookup_insert_eq.
  - intros id' Hne. rewrite Hsrc, Hdst.
    rewrite lookup_delete_ne, lookup_insert_ne by congruence. split; reflexivity.
  - intros p H1 H2 H3 H4. rewrite Hpdf by assumption.
    apply movePdf_frame; assumption.
Qed.

(** X11: a transition of an identifier found in its source collection
    moves the PDF when there is one (the destination then holds its
    content, replacing what was there, and the source path is empty),
    puts the source record in the destination mapping (replacing a
    record already there), and leaves the records of all other
    identifiers and all other files as they were. *)
Theorem transition_moves_and_frames (d : gmap string content) id meta :
  (mapping d unread !! id = Some meta ->
   exists d',
     markPaperAsRead base id d = (Resolved tt, d') /\
     (forall c, d !! pdf id unread = Some c ->
                d' !! pdf id read = Some c /\ d' !! pdf id unread = None) /\
     mapping d' read !! id = Some meta /\
     (forall id', id' <> id ->
                  mapping d' unread !! id' = mapping d unread !! id' /\
                  mapping d' read !! id' = mapping d read !! id') /\
     (forall p, p <> mp unread -> p <> mp read ->
                p <> pdf id unread -> p <> pdf id read -> d' !! p = d !! p)) /\
  (mapping d read !! id = Some meta ->
   exists d',
     markPaperAsUnread base id d = (Resolved tt, d') /\
     (forall c, d !! pdf id read = Some c ->
                d' !! pdf id unread = Some c /\ d' !! pdf id read = None) /\
     mapping d' unread !! id = Some meta /\
     (forall id', id' <> id ->
                  mapping d' unread !! id' = mapping d unread !! id' /\
                  mapping d' read !! id' = mapping d read !! id') /\
     (forall p, p <> mp unread -> p <> mp read ->
                p <> pdf id unread -> p <> pdf id read -> d' !! p = d !! p)).
Proof.
  split; [apply markPaperAsRead_moves|apply markPaperAsUnread_moves].
Qed.


(** X13: the round trip in the other direction: [markPaperAsUnread]
    and then [markPaperAsRead] on an identifier of the read collection
    give back the read mapping and the record, leave the identifier out
    of the unread collection, and put a PDF that was in the read
    directory there again. *)
Theorem unread_then_read_restores (d : gmap string content) id meta :
  mapping d read !! id = Some meta ->
  exists d1 d2,
    markPaperAsUnread base id d = (Resolved tt, d1) /\
    markPaperAsRead base id d1 = (Resolved tt, d2) /\
    mapping d2 read = mapping d read /\
    ~ present base d2 unread id /\
    (is_Some (d !! pdf id read) ->
     d2 !! pdf id read = d !! pdf id read /\ d2 !! pdf id unread = None).
Proof.
  intros Hr.
  destruct (markPaperAsUnread_present base id d meta Hr)
    as (d1 & Hrun1 & Hsrc1 & Hdst1 & Hpdf1).
  assert (Hu1 : mapping d1 unread !! id = Some meta)
    by (rewrite Hdst1; apply lookup_insert_eq).
  destruct (markPaperAsRead_present base id d1 meta Hu1)
    as (d2 & Hrun2 & Hsrc2 & Hdst2 & Hpdf2).
  exists d1, d2. split; [exact Hrun1|]. split; [exact Hrun2|].
  split; [rewrite Hdst2, Hsrc1, insert_delete_eq; apply insert_id; exact Hr|].
  split; [apply not_present_None; rewrite Hsrc2; apply lookup_delete_eq|].
  intros [c Hc].
  assert (Hur : pdf id unread <> pdf id read) by apply pdf_unread_not_read.
  assert (H1u : d1 !! pdf id unread = Some c).
  { rewrite Hpdf1 by apply pdf_not_metadata.
    rewrite movePdf_disk, Hc, lookup_delete_ne, lookup_insert_eq by congruence.
    reflexivity. }
  rewrite !Hpdf2 by apply pdf_not_metadata.
  rewrite movePdf_disk, H1u. split.
  - rewrite lookup_delete_ne, lookup_insert_eq by congruence. symmetry. exact Hc.
  - apply lookup_delete_eq.
Qed.

(** *** Listing *)

Lemma listLocalPapers_for_one status papers (d : gmap string content) :
  listLocalPapers_for base [status] papers d =
  (Resolved
     (papers ++
      map (fun entry => convertMetadataToLocalPaper base (fst entry) (snd entry) status)
        (map_to_list (mapping d status))), d).
Proof.
  cbn [listLocalPapers_for]. run. rewrite readMetadataFile_eq. reflexivity.
Qed.

Lemma listed_iff status (d : gmap string content) paper :
  paper ∈ map (fun entry =>
                 convertMetadataToLocalPaper base (fst entry) (snd entry) status)
            (map_to_list (mapping d status)) <->
  exists id meta,
    mapping d status !! id = Some meta /\
    paper = convertMetadataToLocalPaper base id meta status.
Proof.
  rewrite list_elem_of_In, in_map_iff. split.
  - intros ([id meta] & <- & Hin). exists id, meta.
    apply list_elem_of_In, elem_of_map_to_list in Hin. split; [exact Hin|reflexivity].
  - intros (id & meta & Hm & ->). exists (id, meta). split; [reflexivity|].
    apply list_elem_of_In, elem_of_map_to_list. exact Hm.
Qed.

Lemma listed_ids status (d : gmap string content) :
  map Paper.id
    (map (fun entry =>
            convertMetadataToLocalPaper base (fst entry) (snd entry) status)
       (map_to_list (mapping d status)))
  = (map_to_list (mapping d status)).*1.
Proof.
  rewrite map_map. induction (map_to_list (mapping d status)) as [|x l IH];
    [reflexivity|]. cbn. f_equal; exact IH.
Qed.

Lemma listLocalPapers_all (d : gmap string content) :
  listLocalPapers base None d =
  (Resolved
     (map (fun entry => convertMetadataToLocalPaper base (fst entry) (snd entry) unread)
        (map_to_list (mapping d unread))
      ++ map (fun entry => convertMetadataToLocalPaper base (fst entry) (snd entry) read)
           (map_to_list (mapping d read))), d).
Proof.
  unfold listLocalPapers. cbn [listLocalPapers_for]. run.
  rewrite !readMetadataFile_eq. reflexivity.
Qed.

(** X14: [listLocalPapers] never rejects and changes nothing; without a
    status it returns the unread papers followed by the read papers;
    the papers of a collection are exactly the records of its mapping,
    each once, converted with the path of that collection. *)
Theorem listLocalPapers_spec (d : gmap string content) :
  exists unreadPapers readPapers,
    listLocalPapers base (Some unread) d = (Resolved unreadPapers, d) /\
    listLocalPapers base (Some read) d = (Resolved readPapers, d) /\
    listLocalPapers base None d = (Resolved (unreadPapers ++ readPapers), d) /\
    (forall paper,
        paper ∈ unreadPapers <->
        exists id meta,
          mapping d unread !! id = Some meta /\
          paper = convertMetadataToLocalPaper base id meta unread) /\
    (forall paper,
        paper ∈ readPapers <->
        exists id meta,
          mapping d read !! id = Some meta /\
          paper = convertMetadataToLocalPaper base id meta read) /\
    length unreadPapers = size (mapping d unread) /\
    length readPapers = size (mapping d read) /\
    NoDup (map Paper.id unreadPapers) /\
    NoDup (map Paper.id readPapers).
Proof.
  eexists _, _.
  split; [apply (listLocalPapers_for_one unread [] d)|].
  split; [apply (listLocalPapers_for_one read [] d)|].
  split; [apply listLocalPapers_all|].
  cbn [app].
  split; [apply listed_iff|]. split; [apply listed_iff|].
  split; [rewrite length_map; apply length_map_to_list|].
  split; [rewrite length_map; apply length_map_to_list|].
  split; rewrite listed_ids; apply NoDup_fst_map_to_list.
Qed.

(** X15: [getLocalPaper] and [listLocalPapers] agree on every
    identifier that names no member of [Object.prototype] (at the name
    of a member they differ: [getLocalPaper] tests [metadata[id]]
    without the [hasOwnProperty] guard of [listLocalPapers]): a paper that
    [getLocalPaper] returns is listed, under the identifier asked for;
    [getLocalPaper] finds nothing exactly when no listed paper has the
    identifier; and when the identifier is in at most one collection,
    the listed paper with that identifier is the one [getLocalPaper]
    returns. *)
Theorem get_agrees_with_list (d : gmap string content) id :
  Object_prototype_member id = false ->
  exists papers,
    listLocalPapers base None d = (Resolved papers, d) /\
    (forall paper,
        getLocalPaper base id d = (Resolved (Some paper), d) ->
        paper ∈ papers /\ Paper.id paper = id) /\
    (getLocalPaper base id d = (Resolved None, d) <->
     forall paper, paper ∈ papers -> Paper.id paper <> id) /\
    (at_most_one_collection base d id ->
     forall paper,
       paper ∈ papers -> Paper.id paper = id ->
       getLocalPaper base id d = (Resolved (Some paper), d)).
Proof.
  intros _.
  pose proof (listLocalPapers_all d) as Hall.
  pose proof (listed_iff unread d) as Hus.
  pose proof (listed_iff read d) as Hrs.
  set (us := map (fun entry =>
                    convertMetadataToLocalPaper base (fst entry) (snd entry) unread)
               (map_to_list (mapping d unread))) in *.
  set (rs := map (fun entry =>
                    convertMetadataToLocalPaper base (fst entry) (snd entry) read)
               (map_to_list (mapping d read))) in *.
  exists (us ++ rs). split; [exact Hall|].
  assert (Hin : forall paper,
             paper ∈ us ++ rs ->
             exists status meta,
               mapping d status !! Paper.id paper = Some meta /\
               paper = convertMetadataToLocalPaper base (Paper.id paper) meta status).
  { intros paper Hp. apply elem_of_app in Hp as [Hp|Hp].
    - apply Hus in Hp as (i & meta & Hm & ->). exists unread, meta. split; [exact Hm|reflexivity].
    - apply Hrs in Hp as (i & meta & Hm & ->). exists read, meta. split; [exact Hm|reflexivity]. }
  rewrite getLocalPaper_eq.
  split; [|split].
  - intros paper Hget. injection Hget as Hget.
    destruct (mapping d unread !! id) as [mu|] eqn:Hu.
    + injection Hget as <-. split; [|reflexivity].
      apply elem_of_app. left. apply Hus. eauto.
    + destruct (mapping d read !! id) as [mr|] eqn:Hr; [|discriminate Hget].
      injection Hget as <-. split; [|reflexivity].
      apply elem_of_app. right. apply Hrs. eauto.
  - split.
    + intros Hget paper Hp Hid. injection Hget as Hget.
      destruct (Hin paper Hp) as (status & meta & Hm & _). rewrite Hid in Hm.
      destruct (mapping d unread !! id) eqn:Hu; [discriminate Hget|].
      destruct (mapping d read !! id) eqn:Hr; [discriminate Hget|].
      destruct status; congruence.
    + intros Hnone.
      destruct (mapping d unread !! id) as [mu|] eqn:Hu.
      { exfalso. apply (Hnone (convertMetadataToLocalPaper base id mu unread));
          [|reflexivity]. apply elem_of_app. left. apply Hus. eauto. }
      destruct (mapping d read !! id) as [mr|] eqn:Hr; [|reflexivity].
      exfalso. apply (Hnone (convertMetadataToLocalPaper base id mr read));
        [|reflexivity]. apply elem_of_app. right. apply Hrs. eauto.
  - intros Hone paper Hp Hid.
    destruct (Hin paper Hp) as (status & meta & Hm & Hpaper). rewrite Hid in Hm, Hpaper.
    destruct status.
    + rewrite Hm, Hpaper. reflexivity.
    + destruct (mapping d unread !! id) as [mu|] eqn:Hu.
      * exfalso. apply Hone. unfold present. rewrite Hu, Hm. eauto.
      * rewrite Hm, Hpaper. reflexivity.
Qed.
End Store.

(** *** The properties on the sample disks *)

Import LocalPapersSamples.


Lemma initializeLocalFileStorage_idempotent_witness :
  initializeLocalFileStorage home read_paper_disk = (Resolved tt, read_paper_disk).
Proof.
  apply (initializeLocalFileStorage_idempotent home read_paper_disk).
  intros status. destruct status; eexists; vm_compute; reflexivity.
Defined.








Lemma transition_moves_and_frames_witness :
  exists d',
    markPaperAsRead home paper_id unread_paper_disk = (Resolved tt, d') /\
    d' !! getPaperFilePath home paper_id read = Some (Raw "%PDF-1.7") /\
    d' !! getPaperFilePath home paper_id unread = None.
Proof.
  destruct (proj1 (transition_moves_and_frames home unread_paper_disk paper_id
                     paper_meta)) as (d' & Hrun & Hpdf & _).
  - vm_compute. reflexivity.
  - exists d'. split; [exact Hrun|]. apply Hpdf. vm_compute. reflexivity.
Defined.

Lemma unread_then_read_restores_witness :
  exists d1 d2,
    markPaperAsUnread home paper_id read_paper_disk = (Resolved tt, d1) /\
    markPaperAsRead home paper_id d1 = (Resolved tt, d2) /\
    mapping home d2 read = mapping home read_paper_disk read.
Proof.
  destruct (unread_then_read_restores home read_paper_disk paper_id paper_meta)
    as (d1 & d2 & H1 & H2 & Hsame & _).
  - vm_compute. reflexivity.
  - exists d1, d2. split; [exact H1|]. split; [exact H2|exact Hsame].
Defined.

Lemma get_agrees_with_list_witness :
  exists papers,
    listLocalPapers home None unread_paper_disk = (Resolved papers, unread_paper_disk) /\
    (forall paper,
        paper ∈ papers -> Paper.id paper = paper_id ->
        getLocalPaper home paper_id unread_paper_disk
        = (Resolved (Some paper), unread_paper_disk)).
Proof.
  destruct (get_agrees_with_list home unread_paper_disk paper_id eq_refl)
    as (papers & Hlist & _ & _ & Hone).
  exists papers. split; [exact Hlist|]. exact (Hone sample_one_collection).
Defined.
End LocalPapersMoreFacts.

(** ** Conversion cache: hits, failures, round trips *)

Module DoclingMoreFacts.
Import Node Effects Docling StringFacts DoclingFacts.

Section Cache.
Variable cwd : string.
Variable path_normalize : string -> string.
Variable path_basename : string -> string.

Local Abbreviation INDEX := (CACHE_METADATA_FILE cwd).
Local Abbreviation persisted := (persisted_cache cwd).
Local Abbreviation temp := (tempFilePath_of cwd path_basename).
Local Abbreviation saveCache := (Docling.saveCache cwd).
Local Abbreviation initializeCache := (Docling.initializeCache cwd).
Local Abbreviation convertAndInsert := (Docling.convertAndInsert cwd path_basename).
Local Abbreviation pdfToMarkdown :=
  (Docling.pdfToMarkdown cwd path_normalize path_basename).
Local Abbreviation entry_for := (Docling.entry_for path_normalize).
Local Abbreviation inserted := (inserted_entry cwd path_normalize path_basename).

Lemma readMarkdown_lookup p (d d' : gmap string node) :
  d' !! p = d !! p -> (readMarkdown p d').1 = (readMarkdown p d).1.
Proof.
  intros H. unfold readMarkdown, await, fs_statSync, fs_readFileSync. rewrite H.
  destruct (d !! p) as [[t|files]|] eqn:E; cbn; rewrite ?H, ?E; try reflexivity.
  destruct (List.find _ files) as [[? ?]|]; reflexivity.
Qed.

Lemma initializeCache_lookup (d : gmap string node) q :
  q <> INDEX -> (initializeCache d).2 !! q = d !! q.
Proof.
  intros Hq. rewrite initializeCache_eq. cbn [snd].
  destruct (d !! INDEX) as [[[s|c]|files]|]; try reflexivity.
  apply lookup_insert_ne. congruence.
Qed.

Lemma saveCache_lookup cache (d : gmap string node) q :
  q <> INDEX -> (saveCache cache d).2 !! q = d !! q.
Proof.
  intros Hq. rewrite saveCache_eq. cbn [snd].
  destruct (d !! INDEX) as [[t|files]|]; try reflexivity;
    apply lookup_insert_ne; congruence.
Qed.

Lemma saveCache_file cache (d : gmap string node) t :
  d !! INDEX = Some (File t) -> persisted (saveCache cache d).2 = cache.
Proof.
  intros H. rewrite saveCache_eq, H. apply persisted_written.
Qed.

Lemma initializeCache_index_file (d : gmap string node) :
  validated d (persisted d) <> [] ->
  (initializeCache d).2 !! INDEX
  = Some (File (CacheJson (validated d (persisted d)))).
Proof.
  intros Hne.
  destruct (persisted_nonempty cwd d) as [c Hc].
  { intros E. rewrite E in Hne. apply Hne. reflexivity. }
  rewrite initializeCache_eq. cbn [snd]. rewrite Hc. apply lookup_insert_eq.
Qed.

(** X16: a cache hit.  When the validated cache has an entry for the
    path, [pdfToMarkdown] reads the output of the first such entry and
    does not run the converter: the result does not depend on what the
    converter would do; that entry moves to the front with a fresh
    timestamp, the others keep their order, and no file other than the
    index is touched. *)
Theorem cache_hit run p (d : gmap string node) cacheIndex cachedEntry :
  list_find (fun entry => path_normalize (pdfPath entry) = path_normalize p)
    (validated d (persisted d)) = Some (cacheIndex, cachedEntry) ->
  exists d',
    pdfToMarkdown run p d = ((readMarkdown (outputPath cachedEntry) d').1, d') /\
    persisted d' =
      with_timestamp cachedEntry (Date_now run)
        :: delete cacheIndex (validated d (persisted d)) /\
    length (persisted d') = length (validated d (persisted d)) /\
    (forall q, q <> INDEX -> d' !! q = d !! q) /\
    (outputPath cachedEntry <> INDEX ->
     (readMarkdown (outputPath cachedEntry) d').1
     = (readMarkdown (outputPath cachedEntry) d).1) /\
    (forall run',
        Date_now run' = Date_now run ->
        pdfToMarkdown run' p d = pdfToMarkdown run p d).
Proof.
  intros Hfind.
  assert (Hne : validated d (persisted d) <> []).
  { intros E. rewrite E in Hfind. discriminate Hfind. }
  pose proof (initializeCache_index_file d Hne) as Hfile.
  eexists. split; [rewrite pdfToMarkdown_eq; cbv zeta; rewrite Hfind; reflexivity|].
  assert (Hframe : forall cache q,
             q <> INDEX -> (saveCache cache (initializeCache d).2).2 !! q = d !! q).
  { intros cache q Hq. rewrite saveCache_lookup, initializeCache_lookup by exact Hq.
    reflexivity. }
  split; [apply (saveCache_file _ _ _ Hfile)|].
  split.
  { rewrite (saveCache_file _ _ _ Hfile). cbn [length].
    apply list_find_Some in Hfind as (Hi & _).
    rewrite length_delete by eauto. apply lookup_lt_Some in Hi. lia. }
  split; [intros q Hq; apply Hframe, Hq|].
  split; [intros Hq; apply readMarkdown_lookup, Hframe, Hq|].
  intros run' Hnow. rewrite !pdfToMarkdown_eq. cbv zeta. rewrite Hfind, Hnow.
  reflexivity.
Qed.

(** *** Misses *)

Lemma miss_eq run p (d : gmap string node) :
  Forall (fun entry => ~ entry_for p entry) (validated d (persisted d)) ->
  pdfToMarkdown run p d =
  convertAndInsert run (path_normalize p) (validated d (persisted d))
    (initializeCache d).2.
Proof.
  intros Hmiss. rewrite pdfToMarkdown_eq. cbv zeta.
  rewrite (proj2 (list_find_None
             (fun entry => path_normalize (pdfPath entry) = path_normalize p) _) Hmiss).
  reflexivity.
Qed.

(** The disk when the converter has run after a miss. *)
Lemma converted_lookup run p (d : gmap string node) q :
  q <> INDEX -> q <> temp run (path_normalize p) ->
  (exec_docling run (temp run (path_normalize p)) (initializeCache d).2).2 !! q
  = d !! q.
Proof.
  intros Hi Ht. rewrite exec_docling_disk.
  destruct (docling_output run); rewrite ?lookup_insert_ne by congruence;
    apply initializeCache_lookup, Hi.
Qed.

Lemma converted_persisted run p (d : gmap string node) :
  persisted (exec_docling run (temp run (path_normalize p)) (initializeCache d).2).2
  = validated d (persisted d).
Proof.
  rewrite (persisted_frame cwd (initializeCache d).2) by apply exec_docling_index.
  apply initializeCache_persisted.
Qed.

(** X17: a conversion that fails after a miss.  A converter that exits
    with an error makes [pdfToMarkdown] reject; and whenever
    [pdfToMarkdown] rejects after a miss, the generated output path is
    empty afterwards (partial output is removed), nothing is inserted
    into the index, and no other file is touched. *)
Theorem failed_conversion_cleans_up run p (d : gmap string node) :
  Forall (fun entry => ~ entry_for p entry) (validated d (persisted d)) ->
  (docling_exit_ok run = false ->
   (pdfToMarkdown run p d).1 = Rejected ExecError) /\
  (forall err d',
      pdfToMarkdown run p d = (Rejected err, d') ->
      d' !! temp run (path_normalize p) = None /\
      persisted d' = validated d (persisted d) /\
      (forall q, q <> INDEX -> q <> temp run (path_normalize p) ->
                 d' !! q = d !! q)).
Proof.
  intros Hmiss. rewrite (miss_eq run p d Hmiss), convertAndInsert_eq. cbv zeta.
  split.
  - intros ->. reflexivity.
  - intros err d'.
    destruct (if docling_exit_ok run then _ else _) as [data|err'].
    + destruct (Nat.ltb _ _); discriminate.
    + intros [= _ <-]. split; [apply lookup_delete_eq|]. split.
      * rewrite (persisted_frame cwd
                   (exec_docling run (temp run (path_normalize p))
                      (initializeCache d).2).2).
        -- apply converted_persisted.
        -- apply lookup_delete_ne, temp_not_index.
      * intros q Hi Ht. rewrite lookup_delete_ne by congruence.
        apply converted_lookup; assumption.
Qed.

(** X18: a conversion that succeeds after a miss while the validated
    cache has room.  The index (when its path is not a directory) then
    holds the new entry in front of the validated cache, the returned
    text is what the generated output path holds, the converter left
    there what it wrote, and no other file is touched: nothing is
    evicted. *)
Theorem conversion_inserts_at_front run p (d : gmap string node) data d' :
  Forall (fun entry => ~ entry_for p entry) (validated d (persisted d)) ->
  length (validated d (persisted d)) < MAX_CACHE_SIZE ->
  (forall files, d !! INDEX <> Some (Directory files)) ->
  pdfToMarkdown run p d = (Resolved data, d') ->
  persisted d' = inserted run p :: validated d (persisted d) /\
  (readMarkdown (temp run (path_normalize p)) d').1 = Resolved data /\
  docling_exit_ok run = true /\
  (forall n, docling_output run = Some n ->
             d' !! temp run (path_normalize p) = Some n) /\
  (forall q, q <> INDEX -> q <> temp run (path_normalize p) -> d' !! q = d !! q).
Proof.
  intros Hmiss Hroom Hnodir. rewrite (miss_eq run p d Hmiss), convertAndInsert_eq.
  cbv zeta.
  set (tempFilePath := temp run (path_normalize p)).
  set (d1 := (exec_docling run tempFilePath (initializeCache d).2).2).
  assert (Hexit : (if docling_exit_ok run then (readMarkdown tempFilePath d1).1
                   else Rejected ExecError) = Resolved data ->
                  docling_exit_ok run = true /\
                  (readMarkdown tempFilePath d1).1 = Resolved data).
  { destruct (docling_exit_ok run); [intros H; split; [reflexivity|exact H]|discriminate]. }
  destruct (if docling_exit_ok run then _ else _) as [data'|err]; [|discriminate].
  destruct (Nat.ltb_spec MAX_CACHE_SIZE
              (length ({| pdfPath := path_normalize p; outputPath := tempFilePath;
                          timestamp := Date_now run |} :: validated d (persisted d))))
    as [Hover|_]; [cbn [length] in Hover; lia|].
  intros [= <- <-]. destruct (Hexit eq_refl) as [Hok Hread].
  assert (Hindex : d1 !! INDEX = (initializeCache d).2 !! INDEX)
    by apply exec_docling_index.
  assert (Hnodir1 : forall files, d1 !! INDEX <> Some (Directory files)).
  { intros files. rewrite Hindex, initializeCache_eq. cbn [snd].
    destruct (d !! INDEX) as [[[s0|c]|files0]|] eqn:E.
    - rewrite E. discriminate.
    - rewrite lookup_insert_eq. discriminate.
    - exfalso. exact (Hnodir files0 eq_refl).
    - rewrite E. discriminate. }
  assert (Hsaved : forall cache,
             (saveCache cache d1).2 = <[INDEX := File (CacheJson cache)]> d1).
  { intros cache. rewrite saveCache_eq. cbn [snd].
    destruct (d1 !! INDEX) as [[t|files]|] eqn:E; try reflexivity.
    exfalso. exact (Hnodir1 files eq_refl). }
  rewrite Hsaved.
  split; [apply persisted_written|].
  assert (Htemp : (<[INDEX := File (CacheJson
                     ({| pdfPath := path_normalize p; outputPath := tempFilePath;
                         timestamp := Date_now run |} :: validated d (persisted d)))]> d1)
                    !! tempFilePath = d1 !! tempFilePath)
    by (apply lookup_insert_ne, not_eq_sym, temp_not_index).
  split; [rewrite (readMarkdown_lookup _ d1 _ Htemp); exact Hread|].
  split; [exact Hok|]. split.
  - intros n Hn. rewrite Htemp. unfold d1. rewrite exec_docling_disk, Hn.
    apply lookup_insert_eq.
  - intros q Hi Ht. rewrite lookup_insert_ne by congruence.
    apply converted_lookup; assumption.
Qed.

(** X19: output directories.  When the converter succeeds after a miss
    and leaves a directory, [pdfToMarkdown] returns the text of the
    first file of the directory whose name ends in [.md]; when the
    directory has no such file it rejects with an [Error] of its own
    and the directory is removed. *)
Theorem directory_output run p (d : gmap string node) files :
  Forall (fun entry => ~ entry_for p entry) (validated d (persisted d)) ->
  docling_exit_ok run = true ->
  docling_output run = Some (Directory files) ->
  match List.find (fun f => endsWith (fst f) ".md") files with
  | Some (_, data) => (pdfToMarkdown run p d).1 = Resolved data
  | None =>
      (exists message, (pdfToMarkdown run p d).1 = Rejected (Error message)) /\
      (pdfToMarkdown run p d).2 !! temp run (path_normalize p) = None
  end.
Proof.
  intros Hmiss Hok Hout. rewrite (miss_eq run p d Hmiss), convertAndInsert_eq.
  cbv zeta. rewrite Hok.
  set (tempFilePath := temp run (path_normalize p)).
  assert (Hread : (readMarkdown tempFilePath
                     (exec_docling run tempFilePath (initializeCache d).2).2).1
                  = match List.find (fun f => endsWith (fst f) ".md") files with
                    | Some (_, data) => Resolved data
                    | None => Rejected (Error "No markdown file found in directory")
                    end).
  { rewrite exec_docling_disk, Hout.
    unfold readMarkdown, await, fs_statSync. rewrite lookup_insert_eq.
    destruct (List.find _ files) as [[name data]|]; reflexivity. }
  rewrite Hread.
  destruct (List.find _ files) as [[name data]|].
  - destruct (Nat.ltb _ _); reflexivity.
  - split; [eexists; reflexivity|]. apply lookup_delete_eq.
Qed.

(** *** Conversion followed by lookup *)

Lemma readMarkdown_Resolved p (d : gmap string node) data :
  (readMarkdown p d).1 = Resolved data -> exists_on d p = true.
Proof.
  unfold readMarkdown, await, fs_statSync, exists_on.
  destruct (d !! p); [reflexivity|discriminate].
Qed.

Lemma exists_on_frame (d d' : gmap string node) q :
  d' !! q = d !! q -> exists_on d' q = exists_on d q.
Proof. unfold exists_on. intros ->. reflexivity. Qed.

(** What a successful conversion after a miss leaves: the new entry at
    the front of the index, and its output as the converter and the
    read found it. *)
Lemma conversion_success run p (d : gmap string node) data d' :
  Forall (fun entry => ~ entry_for p entry) (validated d (persisted d)) ->
  Forall (fun entry => outputPath entry <> temp run (path_normalize p))
    (validated d (persisted d)) ->
  (forall files, d !! INDEX <> Some (Directory files)) ->
  pdfToMarkdown run p d = (Resolved data, d') ->
  exists rest,
    d' !! INDEX = Some (File (CacheJson (inserted run p :: rest))) /\
    (forall x, x ∈ rest -> x ∈ validated d (persisted d)) /\
    exists_on d' (temp run (path_normalize p)) = true /\
    (readMarkdown (temp run (path_normalize p)) d').1 = Resolved data.
Proof.
  intros Hmiss Hfresh Hnodir. rewrite (miss_eq run p d Hmiss), convertAndInsert_eq.
  cbv zeta.
  set (tempFilePath := temp run (path_normalize p)) in *.
  set (d1 := (exec_docling run tempFilePath (initializeCache d).2).2).
  set (loaded := validated d (persisted d)) in *.
  assert (Hexit : (if docling_exit_ok run then (readMarkdown tempFilePath d1).1
                   else Rejected ExecError) = Resolved data ->
                  (readMarkdown tempFilePath d1).1 = Resolved data).
  { destruct (docling_exit_ok run); [exact id|discriminate]. }
  destruct (if docling_exit_ok run then _ else _) as [data'|err]; [|discriminate].
  assert (Hnd : forall files, d1 !! INDEX <> Some (Directory files)).
  { intros files. unfold d1, tempFilePath. rewrite exec_docling_index, initializeCache_eq.
    cbn [snd].
    destruct (d !! INDEX) as [[[s0|c]|files0]|] eqn:E.
    - rewrite E. discriminate.
    - rewrite lookup_insert_eq. discriminate.
    - exfalso. exact (Hnodir files0 eq_refl).
    - rewrite E. discriminate. }
  assert (Hfinal : forall cache (d2 : gmap string node),
             (forall files, d2 !! INDEX <> Some (Directory files)) ->
             d2 !! tempFilePath = d1 !! tempFilePath ->
             data' = data -> (saveCache cache d2).2 = d' ->
             d' !! INDEX = Some (File (CacheJson cache)) /\
             exists_on d' tempFilePath = true /\
             (readMarkdown tempFilePath d').1 = Resolved data).
  { intros cache d2 Hi Ht <- <-.
    assert (Hsaved : (saveCache cache d2).2 = <[INDEX := File (CacheJson cache)]> d2).
    { rewrite saveCache_eq. cbn [snd].
      destruct (d2 !! INDEX) as [[t|files]|] eqn:E; try reflexivity.
      exfalso. exact (Hi files eq_refl). }
    rewrite Hsaved.
    assert (Hsame : (<[INDEX := File (CacheJson cache)]> d2) !! tempFilePath
                    = d1 !! tempFilePath).
    { rewrite lookup_insert_ne by (apply not_eq_sym, temp_not_index). exact Ht. }
    split; [apply lookup_insert_eq|]. split.
    - rewrite (exists_on_frame d1 _ _ Hsame).
      apply (readMarkdown_Resolved _ _ data'), Hexit. reflexivity.
    - rewrite (readMarkdown_lookup _ d1 _ Hsame). apply Hexit. reflexivity. }
  destruct (Nat.ltb_spec MAX_CACHE_SIZE
              (length ({| pdfPath := path_normalize p; outputPath := tempFilePath;
                          timestamp := Date_now run |} :: loaded))) as [Hover|_].
  - destruct (back_entry {| pdfPath := path_normalize p; outputPath := tempFilePath;
                            timestamp := Date_now run |} loaded)
      as (front & back & E & -> & -> & _).
    destruct front as [|x front].
    { exfalso. cbn in E. injection E as _ E. rewrite E in Hover. cbn in Hover.
      unfold MAX_CACHE_SIZE in Hover. lia. }
    cbn [app] in E. injection E as <- E.
    assert (Hback : outputPath back <> tempFilePath).
    { rewrite Forall_forall in Hfresh. apply Hfresh. rewrite E.
      apply elem_of_app. right. constructor. }
    intros [= Hd Hd']. exists front.
    assert (Hdel : forall files,
               delete (outputPath back) d1 !! INDEX <> Some (Directory files)).
    { intros files. destruct (decide (outputPath back = INDEX)) as [->|Hne].
      - rewrite lookup_delete_eq. discriminate.
      - rewrite lookup_delete_ne by exact Hne. apply Hnd. }
    destruct (Hfinal _ _ Hdel (lookup_delete_ne d1 _ _ Hback) Hd Hd')
      as (Hi & Hex & Hrd).
    split; [exact Hi|]. split; [|split; [exact Hex|exact Hrd]].
    intros y Hy. rewrite E. apply elem_of_app. left. exact Hy.
  - intros [= Hd Hd']. exists loaded.
    destruct (Hfinal _ d1 Hnd eq_refl Hd Hd') as (Hi & Hex & Hrd).
    split; [exact Hi|]. split; [tauto|]. split; [exact Hex|exact Hrd].
Qed.

(** X20: conversion followed by lookup.  [path.normalize] being
    idempotent, once a call for a path that missed has converted it
    and returned [data], the next call for the same path is a hit: it
    returns the same [data] without running the converter (whatever
    its run would have answered), moves the new entry to the front
    with the time of the second call, and changes no file but the
    index. *)
Theorem convert_then_hit run run' p (d : gmap string node) data d' :
  (forall q, path_normalize (path_normalize q) = path_normalize q) ->
  Forall (fun entry => ~ entry_for p entry) (validated d (persisted d)) ->
  Forall (fun entry => outputPath entry <> temp run (path_normalize p))
    (validated d (persisted d)) ->
  (forall files, d !! INDEX <> Some (Directory files)) ->
  pdfToMarkdown run p d = (Resolved data, d') ->
  exists d'' rest,
    pdfToMarkdown run' p d' = (Resolved data, d'') /\
    persisted d'' = with_timestamp (inserted run p) (Date_now run') :: rest /\
    (forall x, x ∈ rest -> x ∈ validated d (persisted d)) /\
    (forall q, q <> INDEX -> d'' !! q = d' !! q).
Proof.
  intros Hidem Hmiss Hfresh Hnodir Hrun.
  destruct (conversion_success run p d data d' Hmiss Hfresh Hnodir Hrun)
    as (rest & Hi & Hsub & Hex & Hrd).
  assert (Hp : persisted d' = inserted run p :: rest).
  { unfold persisted_cache. rewrite Hi. reflexivity. }
  assert (Hv : validated d' (persisted d') = inserted run p :: validated d' rest).
  { rewrite Hp. unfold validated. cbn [List.filter].
    change (outputPath (inserted run p)) with (temp run (path_normalize p)).
    rewrite Hex. reflexivity. }
  assert (Hfind : list_find
                    (fun entry => path_normalize (pdfPath entry) = path_normalize p)
                    (validated d' (persisted d')) = Some (0, inserted run p)).
  { rewrite Hv. apply list_find_Some. split; [reflexivity|].
    split; [apply Hidem|]. intros j y _ Hj. lia. }
  assert (Hfile : (initializeCache d').2 !! INDEX
                  = Some (File (CacheJson (validated d' (persisted d'))))).
  { apply initializeCache_index_file. rewrite Hv. discriminate. }
  assert (Hframe : forall cache q,
             q <> INDEX -> (saveCache cache (initializeCache d').2).2 !! q = d' !! q).
  { intros cache q Hq. rewrite saveCache_lookup, initializeCache_lookup by exact Hq.
    reflexivity. }
  eexists _, (validated d' rest).
  split.
  { rewrite pdfToMarkdown_eq. cbv zeta. rewrite Hfind. f_equal.
    change (outputPath (inserted run p)) with (temp run (path_normalize p)).
    rewrite (readMarkdown_lookup _ d'); [exact Hrd|].
    apply Hframe, temp_not_index. }
  split.
  { rewrite (saveCache_file _ _ _ Hfile), Hv. reflexivity. }
  split.
  { intros x Hx. apply Hsub. apply list_elem_of_In in Hx. unfold validated in Hx.
    apply filter_In in Hx. apply list_elem_of_In, Hx. }
  intros q Hq. apply Hframe, Hq.
Qed.

(** *** Loading the index *)

Lemma exists_on_initializeCache (d : gmap string node) q :
  exists_on (initializeCache d).2 q = exists_on d q.
Proof.
  rewrite initializeCache_eq. cbn [snd]. unfold exists_on.
  destruct (d !! INDEX) as [[[s0|c]|files]|] eqn:E; try reflexivity.
  destruct (decide (q = INDEX)) as [->|Hq].
  - rewrite lookup_insert_eq, E. reflexivity.
  - rewrite lookup_insert_ne by congruence. reflexivity.
Qed.

Lemma validated_ext (d d' : gmap string node) cache :
  (forall q, exists_on d' q = exists_on d q) ->
  validated d' cache = validated d cache.
Proof.
  intros H. unfold validated. apply filter_ext. intros entry. apply H.
Qed.

Lemma validated_idem (d : gmap string node) cache :
  validated d (validated d cache) = validated d cache.
Proof.
  unfold validated. induction cache as [|entry cache IH]; [reflexivity|].
  cbn [List.filter]. destruct (exists_on d (outputPath entry)) eqn:E.
  - cbn [List.filter]. rewrite E, IH. reflexivity.
  - exact IH.
Qed.

(** X21: loading the index.  Whatever the index path holds (nothing,
    text that does not parse, a directory), [initializeCache] does not
    throw; it returns the entries of the index whose output still
    exists, changes no file but the index, which then lists exactly
    the entries returned, and loading again returns the same entries
    and changes nothing.  (The cache directory that it creates is
    implicit on the model disk.) *)
Theorem initializeCache_spec (d : gmap string node) :
  exists cache d',
    initializeCache d = (Resolved cache, d') /\
    cache = List.filter (fun entry => exists_on d (outputPath entry)) (persisted d) /\
    Forall (fun entry => exists_on d' (outputPath entry) = true) cache /\
    persisted d' = cache /\
    (forall q, q <> INDEX -> d' !! q = d !! q) /\
    initializeCache d' = (Resolved cache, d').
Proof.
  exists (validated d (persisted d)), (initializeCache d).2.
  split; [rewrite initializeCache_eq; reflexivity|].
  split; [reflexivity|].
  split.
  { apply Forall_forall. intros entry Hin. rewrite exists_on_initializeCache.
    apply list_elem_of_In in Hin. unfold validated in Hin.
    apply filter_In in Hin. apply Hin. }
  split; [apply initializeCache_persisted|].
  split; [intros q Hq; apply initializeCache_lookup, Hq|].
  rewrite (initializeCache_eq cwd (initializeCache d).2).
  rewrite initializeCache_persisted,
    (validated_ext d _ _ (exists_on_initializeCache d)), validated_idem.
  f_equal. rewrite initializeCache_eq. cbn [snd].
  destruct (d !! INDEX) as [[[s0|c]|files]|] eqn:E; rewrite ?E; try reflexivity.
  rewrite lookup_insert_eq. apply insert_insert_eq.
Qed.

(** *** Names of output files *)

Lemma safe_char_name (c : ascii) : is_name_char (safe_char c) = true.
Proof.
  unfold safe_char, is_name_char.
  destruct ((Nat.leb 97 (nat_of_ascii c) && Nat.leb (nat_of_ascii c) 122)
            || (Nat.leb 65 (nat_of_ascii c) && Nat.leb (nat_of_ascii c) 90)
            || (Nat.leb 48 (nat_of_ascii c) && Nat.leb (nat_of_ascii c) 57)
            || Nat.eqb (nat_of_ascii c) 46 || Nat.eqb (nat_of_ascii c) 45)%bool eqn:E.
  - rewrite E. reflexivity.
  - reflexivity.
Qed.

Lemma safe_char_fixed (c : ascii) : safe_char c = c <-> is_name_char c = true.
Proof.
  split.
  - intros H. rewrite <- H. apply safe_char_name.
  - unfold safe_char, is_name_char.
    destruct ((Nat.leb 97 (nat_of_ascii c) && Nat.leb (nat_of_ascii c) 122)
              || (Nat.leb 65 (nat_of_ascii c) && Nat.leb (nat_of_ascii c) 90)
              || (Nat.leb 48 (nat_of_ascii c) && Nat.leb (nat_of_ascii c) 57)
              || Nat.eqb (nat_of_ascii c) 46 || Nat.eqb (nat_of_ascii c) 45)%bool;
      [reflexivity|].
    cbn [orb]. intros H. apply Nat.eqb_eq in H.
    rewrite <- (ascii_nat_embedding c), H. reflexivity.
Qed.

(** X22: sanitized names.  [sanitize] keeps the length of a name,
    leaves only letters, digits, [.], [-] and [_] in it, and changes
    exactly the names that have another character; so sanitizing twice
    is sanitizing once. *)
Theorem sanitize_spec (s : string) :
  String.length (sanitize s) = String.length s /\
  Forall (fun c => is_name_char c = true) (list_ascii_of_string (sanitize s)) /\
  (sanitize s = s <->
   Forall (fun c => is_name_char c = true) (list_ascii_of_string s)) /\
  sanitize (sanitize s) = sanitize s.
Proof.
  induction s as [|c s (IHlen & IHall & IHfix & IHidem)].
  - repeat split; constructor.
  - cbn [sanitize String.length list_ascii_of_string].
    split; [rewrite IHlen; reflexivity|].
    split; [constructor; [apply safe_char_name|exact IHall]|].
    split.
    + split.
      * intros [= Hc Hs]. constructor; [apply safe_char_fixed, Hc|apply IHfix, Hs].
      * intros H. apply Forall_cons in H as [Hc Hs].
        apply safe_char_fixed in Hc. apply IHfix in Hs. rewrite Hc, Hs. reflexivity.
    + rewrite (proj2 (safe_char_fixed _) (safe_char_name c)), IHidem. reflexivity.
Qed.

(** *** What a call can do to the index and to the disk *)

(** The index after a call, by cases: lost (the index path is a
    directory), as validated, a hit moved to the front, or a
    conversion inserted, with the back entry dropped or not. *)
Lemma persisted_step run p (d : gmap string node) :
  let loaded := validated d (persisted d) in
  let after := persisted (pdfToMarkdown run p d).2 in
  after = [] \/ after = loaded \/
  (exists cacheIndex cachedEntry,
      loaded !! cacheIndex = Some cachedEntry /\
      after = with_timestamp cachedEntry (Date_now run) :: delete cacheIndex loaded) \/
  (Forall (fun entry => ~ entry_for p entry) loaded /\
   (after = inserted run p :: loaded \/
    exists back, inserted run p :: loaded = after ++ [back])).
Proof.
  cbv zeta. rewrite pdfToMarkdown_eq. cbv zeta.
  set (loaded := validated d (persisted d)).
  destruct (list_find _ loaded) as [[i e]|] eqn:Hfind.
  - cbn [snd]. apply list_find_Some in Hfind as (Hi & _ & _).
    destruct (persisted_saveCache cwd (with_timestamp e (Date_now run) :: delete i loaded)
                (initializeCache d).2) as [H|H]; [|left; exact H].
    right. right. left. exists i, e. split; [exact Hi|exact H].
  - pose proof (proj1 (list_find_None _ _) Hfind) as Hmiss.
    rewrite convertAndInsert_eq. cbv zeta.
    set (tempFilePath := temp run (path_normalize p)).
    set (d1 := (exec_docling run tempFilePath (initializeCache d).2).2).
    destruct (if docling_exit_ok run then _ else _) as [data|err].
    + destruct (Nat.ltb_spec MAX_CACHE_SIZE
                  (length ({| pdfPath := path_normalize p; outputPath := tempFilePath;
                              timestamp := Date_now run |} :: loaded))) as [Hover|Hfit];
        cbn [snd].
      * destruct (back_entry {| pdfPath := path_normalize p; outputPath := tempFilePath;
                                timestamp := Date_now run |} loaded)
          as (front & back & E & -> & -> & _).
        destruct (persisted_saveCache cwd front (delete (outputPath back) d1)) as [H|H];
          [|left; exact H].
        right. right. right. split; [exact Hmiss|]. right. exists back.
        rewrite H. exact E.
      * destruct (persisted_saveCache cwd
                    ({| pdfPath := path_normalize p; outputPath := tempFilePath;
                        timestamp := Date_now run |} :: loaded) d1) as [H|H];
          [|left; exact H].
        right. right. right. split; [exact Hmiss|]. left. exact H.
    + cbn [snd]. right. left.
      rewrite (persisted_frame cwd (initializeCache d).2).
      * apply initializeCache_persisted.
      * rewrite lookup_delete_ne by apply temp_not_index.
        apply exec_docling_index.
Qed.

Lemma in_cache_dir_index : in_cache_dir cwd INDEX.
Proof. eexists. reflexivity. Qed.

Lemma in_cache_dir_temp run normalizedPath :
  in_cache_dir cwd (temp run normalizedPath).
Proof. eexists. reflexivity. Qed.

Lemma validated_Forall (P : CacheEntry -> Prop) (d : gmap string node) cache :
  Forall P cache -> Forall P (validated d cache).
Proof.
  intros H. apply Forall_forall. intros x Hx. rewrite Forall_forall in H.
  apply H. apply list_elem_of_In in Hx. unfold validated in Hx.
  apply filter_In in Hx. apply list_elem_of_In, Hx.
Qed.

Lemma confined_step run p (d : gmap string node) :
  Forall (fun entry => in_cache_dir cwd (outputPath entry)) (persisted d) ->
  Forall (fun entry => in_cache_dir cwd (outputPath entry))
    (persisted (pdfToMarkdown run p d).2) /\
  forall q, ~ in_cache_dir cwd q -> (pdfToMarkdown run p d).2 !! q = d !! q.
Proof.
  intros Hd.
  pose proof (validated_Forall _ d _ Hd) as Hloaded.
  assert (Hnew : Forall (fun entry => in_cache_dir cwd (outputPath entry))
                   (inserted run p :: validated d (persisted d)))
    by (constructor; [apply in_cache_dir_temp|exact Hloaded]).
  split.
  - destruct (persisted_step run p d)
      as [H|[H|[(i & e & Hi & H)|(_ & [H|(back & H)])]]]; rewrite ?H.
    + constructor.
    + exact Hloaded.
    + constructor.
      * rewrite Forall_forall in Hloaded. apply (Hloaded e).
        apply list_elem_of_lookup_2 in Hi. exact Hi.
      * apply Forall_delete, Hloaded.
    + exact Hnew.
    + rewrite H in Hnew. apply Forall_app in Hnew. apply Hnew.
  - intros q Hq.
    assert (Hqi : q <> INDEX) by (intros ->; apply Hq, in_cache_dir_index).
    assert (Hqt : q <> temp run (path_normalize p))
      by (intros ->; apply Hq, in_cache_dir_temp).
    rewrite pdfToMarkdown_eq. cbv zeta.
    destruct (list_find _ _) as [[i e]|].
    + cbn [snd]. rewrite saveCache_lookup, initializeCache_lookup by exact Hqi.
      reflexivity.
    + rewrite convertAndInsert_eq. cbv zeta.
      destruct (if docling_exit_ok run then _ else _) as [data|err].
      * destruct (Nat.ltb MAX_CACHE_SIZE _); cbn [snd].
        -- destruct (back_entry {| pdfPath := path_normalize p;
                                   outputPath := temp run (path_normalize p);
                                   timestamp := Date_now run |}
                       (validated d (persisted d)))
             as (front & back & E & -> & -> & _).
           rewrite saveCache_lookup by exact Hqi.
           rewrite lookup_delete_ne; [apply converted_lookup; assumption|].
           intros <-. apply Hq.
           change (Forall (fun entry => in_cache_dir cwd (outputPath entry))
                     ({| pdfPath := path_normalize p;
                         outputPath := temp run (path_normalize p);
                         timestamp := Date_now run |} :: validated d (persisted d)))
             in Hnew.
           rewrite E in Hnew. apply Forall_app in Hnew as [_ Hb].
           inversion Hb; assumption.
        -- rewrite saveCache_lookup by exact Hqi. apply converted_lookup; assumption.
      * cbn [snd]. rewrite lookup_delete_ne by congruence.
        apply converted_lookup; assumption.
Qed.

(** X23: calls stay in the cache directory.  When every output path
    listed in the index lies in the cache directory (as on a disk
    without an index), any sequence of calls of [pdfToMarkdown], hits
    or misses, successful or not, with evictions or without, leaves
    every path that is not below the cache directory as it was (the
    source PDFs among them), and the index still lists only outputs in
    the cache directory.  The converter is taken to write at its
    [--output] path only. *)
Theorem calls_stay_in_cache_dir calls (d : gmap string node) :
  Forall (fun entry => in_cache_dir cwd (outputPath entry)) (persisted d) ->
  Forall (fun entry => in_cache_dir cwd (outputPath entry))
    (persisted (run_calls cwd path_normalize path_basename calls d)) /\
  forall q, ~ in_cache_dir cwd q ->
            run_calls cwd path_normalize path_basename calls d !! q = d !! q.
Proof.
  revert d. induction calls as [|[run p] calls IH]; intros d Hd; cbn [run_calls].
  - split; [exact Hd|reflexivity].
  - destruct (confined_step run p d Hd) as [Hinv Hframe].
    destruct (IH _ Hinv) as [Hinv' Hframe'].
    split; [exact Hinv'|]. intros q Hq. rewrite (Hframe' q Hq). apply Hframe, Hq.
Qed.

(** *** One entry per source path *)

Lemma keys_validated (d : gmap string node) cache :
  NoDup (keys path_normalize cache) -> NoDup (keys path_normalize (validated d cache)).
Proof.
  unfold keys, validated. induction cache as [|entry cache IH]; [intros _; constructor|].
  cbn [fmap list_fmap List.filter]. rewrite NoDup_cons. intros [Hnot Hnd].
  destruct (exists_on d (outputPath entry)); [|apply IH, Hnd].
  cbn [fmap list_fmap]. apply NoDup_cons. split; [|apply IH, Hnd].
  intros Hin. apply Hnot. apply list_elem_of_fmap in Hin as (y & Hy & Hin).
  apply list_elem_of_fmap. exists y. split; [exact Hy|].
  apply list_elem_of_In in Hin. apply filter_In in Hin. apply list_elem_of_In, Hin.
Qed.

Lemma unique_step run p (d : gmap string node) :
  (forall q, path_normalize (path_normalize q) = path_normalize q) ->
  NoDup (keys path_normalize (persisted d)) ->
  NoDup (keys path_normalize (persisted (pdfToMarkdown run p d).2)).
Proof.
  intros Hidem Hd. pose proof (keys_validated d _ Hd) as Hloaded.
  assert (Hnew : Forall (fun entry => ~ entry_for p entry) (validated d (persisted d)) ->
                 NoDup (keys path_normalize (inserted run p :: validated d (persisted d)))).
  { intros Hmiss. unfold keys. cbn [fmap list_fmap]. apply NoDup_cons.
    split; [|exact Hloaded].
    intros Hin. apply list_elem_of_fmap in Hin as (y & Hy & Hin).
    rewrite Forall_forall in Hmiss. apply (Hmiss y Hin).
    unfold entry_for. rewrite <- Hy. apply Hidem. }
  destruct (persisted_step run p d)
    as [H|[H|[(i & e & Hi & H)|(Hmiss & [H|(back & H)])]]]; rewrite ?H.
  - constructor.
  - exact Hloaded.
  - rewrite <- (take_drop_middle _ _ _ Hi) in Hloaded.
    rewrite delete_take_drop. unfold keys in *.
    rewrite fmap_app, fmap_cons in Hloaded. cbn [fmap list_fmap].
    rewrite fmap_app.
    change (pdfPath (with_timestamp e (Date_now run))) with (pdfPath e).
    rewrite <- Permutation_middle in Hloaded. exact Hloaded.
  - apply Hnew, Hmiss.
  - specialize (Hnew Hmiss). rewrite H in Hnew. unfold keys in Hnew.
    rewrite fmap_app in Hnew. apply NoDup_app in Hnew. apply Hnew.
Qed.

(** X24: one entry per source path.  [path.normalize] being
    idempotent, an index that has no two entries with the same
    normalized source path keeps this over any sequence of calls: a
    hit moves its entry, a conversion is inserted only after a miss. *)
Theorem calls_keep_keys_unique calls (d : gmap string node) :
  (forall q, path_normalize (path_normalize q) = path_normalize q) ->
  NoDup (keys path_normalize (persisted d)) ->
  NoDup (keys path_normalize
           (persisted (run_calls cwd path_normalize path_basename calls d))).
Proof.
  intros Hidem. revert d.
  induction calls as [|[run p] calls IH]; intros d Hd; cbn [run_calls].
  - exact Hd.
  - apply IH, unique_step; assumption.
Qed.
End Cache.

(** *** The sample disks *)

Import DoclingSamples.

Lemma one_paper_loaded :
  validated one_paper_disk (persisted_cache cwd one_paper_disk)
  = [sample_entry 500 "a" "1.pdf"].
Proof. vm_compute. reflexivity. Defined.

Lemma one_paper_misses_six :
  Forall (fun entry => ~ entry_for normalize "/papers/6.pdf" entry)
    (validated one_paper_disk (persisted_cache cwd one_paper_disk)).
Proof.
  rewrite one_paper_loaded.
  repeat constructor; intros H; vm_compute in H; discriminate H.
Defined.

Lemma one_paper_index_file files :
  one_paper_disk !! CACHE_METADATA_FILE cwd <> Some (Directory files).
Proof.
  assert (H : one_paper_disk !! CACHE_METADATA_FILE cwd
              = Some (File (CacheJson [sample_entry 500 "a" "1.pdf"])))
    by (vm_compute; reflexivity).
  rewrite H. discriminate.
Defined.

Lemma one_paper_converts_six :
  pdfToMarkdown cwd normalize basename (converts 50 "f") "/papers/6.pdf" one_paper_disk
  = (Resolved (Plain "# converted"),
     (pdfToMarkdown cwd normalize basename (converts 50 "f") "/papers/6.pdf"
        one_paper_disk).2).
Proof.
  assert (H : (pdfToMarkdown cwd normalize basename (converts 50 "f") "/papers/6.pdf"
                 one_paper_disk).1 = Resolved (Plain "# converted"))
    by (vm_compute; reflexivity).
  rewrite <- H. apply surjective_pairing.
Defined.

Lemma five_papers_index :
  persisted_cache cwd five_papers_disk = five_entries.
Proof. vm_compute. reflexivity. Defined.

Lemma five_entries_in_cache_dir :
  Forall (fun entry => in_cache_dir cwd (outputPath entry)) five_entries.
Proof.
  repeat constructor.
  - exists "docling-5.pdf-e.md". reflexivity.
  - exists "docling-4.pdf-d.md". reflexivity.
  - exists "docling-3.pdf-c.md". reflexivity.
  - exists "docling-2.pdf-b.md". reflexivity.
  - exists "docling-1.pdf-a.md". reflexivity.
Defined.

Lemma cache_hit_witness :
  exists d',
    pdfToMarkdown cwd normalize basename (converts 600 "z") "/papers/3.pdf"
      five_papers_disk
    = ((readMarkdown (outputPath (sample_entry 300 "c" "3.pdf")) d').1, d') /\
    persisted_cache cwd d' =
      [ sample_entry 600 "c" "3.pdf"; sample_entry 100 "e" "5.pdf";
        sample_entry 200 "d" "4.pdf"; sample_entry 400 "b" "2.pdf";
        sample_entry 500 "a" "1.pdf" ].
Proof.
  assert (Hfind : list_find (fun entry => normalize (pdfPath entry)
                                          = normalize "/papers/3.pdf")
                    (validated five_papers_disk (persisted_cache cwd five_papers_disk))
                  = Some (2, sample_entry 300 "c" "3.pdf")).
  { unfold five_papers_disk. rewrite five_calls_loaded. vm_compute. reflexivity. }
  destruct (cache_hit cwd normalize basename (converts 600 "z") "/papers/3.pdf"
              five_papers_disk 2 (sample_entry 300 "c" "3.pdf") Hfind)
    as (d' & Hrun & Hp & _).
  exists d'. split; [exact Hrun|]. rewrite Hp.
  unfold five_papers_disk. rewrite five_calls_loaded. reflexivity.
Defined.

Lemma failed_conversion_cleans_up_witness :
  (pdfToMarkdown cwd normalize basename (fails 50 "f") "/papers/6.pdf"
     one_paper_disk).1 = Rejected ExecError /\
  (pdfToMarkdown cwd normalize basename (fails 50 "f") "/papers/6.pdf"
     one_paper_disk).2 !! tempFilePath_of cwd basename (fails 50 "f") "/papers/6.pdf"
  = None.
Proof.
  destruct (failed_conversion_cleans_up cwd normalize basename (fails 50 "f")
              "/papers/6.pdf" one_paper_disk one_paper_misses_six) as [Hrej Hclean].
  specialize (Hrej eq_refl). split; [exact Hrej|].
  refine (proj1 (Hclean ExecError _ _)).
  rewrite <- Hrej. apply surjective_pairing.
Defined.

Lemma conversion_inserts_at_front_witness :
  persisted_cache cwd
    (pdfToMarkdown cwd normalize basename (converts 50 "f") "/papers/6.pdf"
       one_paper_disk).2
  = [sample_entry 50 "f" "6.pdf"; sample_entry 500 "a" "1.pdf"].
Proof.
  destruct (conversion_inserts_at_front cwd normalize basename (converts 50 "f")
              "/papers/6.pdf" one_paper_disk (Plain "# converted")
              (pdfToMarkdown cwd normalize basename (converts 50 "f") "/papers/6.pdf"
                 one_paper_disk).2 one_paper_misses_six)
    as (Hp & _).
  - rewrite one_paper_loaded. vm_compute. lia.
  - apply one_paper_index_file.
  - exact one_paper_converts_six.
  - rewrite Hp, one_paper_loaded. reflexivity.
Defined.

Lemma directory_output_witness :
  (pdfToMarkdown cwd normalize basename (converts_to_directory 50 "f") "/papers/6.pdf"
     one_paper_disk).1 = Resolved (Plain "# paper").
Proof.
  exact (directory_output cwd normalize basename (converts_to_directory 50 "f")
           "/papers/6.pdf" one_paper_disk _ one_paper_misses_six eq_refl eq_refl).
Defined.

Lemma convert_then_hit_witness :
  exists d'' rest,
    pdfToMarkdown cwd normalize basename (fails 60 "g") "/papers/6.pdf"
      (pdfToMarkdown cwd normalize basename (converts 50 "f") "/papers/6.pdf"
         one_paper_disk).2
    = (Resolved (Plain "# converted"), d'') /\
    persisted_cache cwd d'' = sample_entry 60 "f" "6.pdf" :: rest.
Proof.
  destruct (convert_then_hit cwd normalize basename (converts 50 "f") (fails 60 "g")
              "/papers/6.pdf" one_paper_disk (Plain "# converted")
              (pdfToMarkdown cwd normalize basename (converts 50 "f") "/papers/6.pdf"
                 one_paper_disk).2 (fun q => eq_refl) one_paper_misses_six)
    as (d'' & rest & Hrun & Hp & _).
  - rewrite one_paper_loaded.
    repeat constructor; intros H; vm_compute in H; discriminate H.
  - apply one_paper_index_file.
  - exact one_paper_converts_six.
  - exists d'', rest. split; [exact Hrun|exact Hp].
Defined.

Lemma calls_stay_in_cache_dir_witness :
  run_calls cwd normalize basename
    [(converts 50 "f", "/papers/6.pdf"); (fails 60 "g", "/papers/7.pdf");
     (converts 70 "h", "/papers/3.pdf")] five_papers_disk !! "/papers/1.pdf"
  = five_papers_disk !! "/papers/1.pdf".
Proof.
  destruct (calls_stay_in_cache_dir cwd normalize basename
              [(converts 50 "f", "/papers/6.pdf"); (fails 60 "g", "/papers/7.pdf");
               (converts 70 "h", "/papers/3.pdf")] five_papers_disk) as [_ Hframe].
  - rewrite five_papers_index. exact five_entries_in_cache_dir.
  - apply Hframe. intros [name H]. discriminate H.
Defined.

Lemma calls_keep_keys_unique_witness :
  NoDup (keys normalize
           (persisted_cache cwd
              (run_calls cwd normalize basename
                 [(converts 50 "f", "/papers/6.pdf");
                  (converts 70 "h", "/papers/3.pdf")] five_papers_disk))).
Proof.
  apply (calls_keep_keys_unique cwd normalize basename
           [(converts 50 "f", "/papers/6.pdf"); (converts 70 "h", "/papers/3.pdf")]
           five_papers_disk (fun q => eq_refl)).
  rewrite five_papers_index. apply (bool_decide_unpack _). vm_compute. reflexivity.
Defined.
End DoclingMoreFacts.

(** ** Part extraction, continued *)

Module ExtractPartsMoreFacts.
Import ExtractParts ExtractPartsFacts.

(** *** What a match is *)

Lemma strip_prefix_Some p s r : strip_prefix p s = Some r -> s = p ++ r.
Proof.
  revert s. induction p as [|a p IH]; intros [|b s]; cbn [strip_prefix app];
    try discriminate.
  - intros [= <-]. reflexivity.
  - intros [= <-]. reflexivity.
  - destruct (N.eqb_spec a b) as [->|_]; [|discriminate].
    intros H. rewrite (IH _ H). reflexivity.
Qed.

Lemma span_payload_Some s run rest :
  span_payload s = (run, rest) ->
  s = run ++ rest /\ Forall (fun c => c <> rparen) run.
Proof.
  revert run rest. induction s as [|c s IH]; intros run rest; cbn [span_payload].
  - intros [= <- <-]. split; [reflexivity|constructor].
  - destruct (N.eqb_spec c rparen) as [->|Hc].
    + intros [= <- <-]. split; [reflexivity|constructor].
    + destruct (span_payload s) as [run' rest'].
      intros [= <- <-]. destruct (IH _ _ eq_refl) as [-> Hrun].
      split; [reflexivity|constructor; assumption].
Qed.

Lemma match_target_Some s g n :
  match_target s = Some (g, n) ->
  exists payload rest,
    s = js "](data:image/" ++ payload ++ rparen :: rest /\
    g = js "data:image/" ++ payload /\
    n = 13 + length payload + 1 /\
    payload <> [] /\ Forall (fun c => c <> rparen) payload.
Proof.
  unfold match_target.
  destruct (strip_prefix _ s) as [s2|] eqn:Hp; [|discriminate].
  destruct (span_payload s2) as [run rest] eqn:Hs.
  destruct run as [|r run]; [discriminate|].
  destruct rest as [|c rest]; [discriminate|].
  destruct (N.eqb_spec c rparen) as [->|_]; [|discriminate].
  intros [= <- <-]. apply strip_prefix_Some in Hp.
  apply span_payload_Some in Hs as [-> Hrun].
  exists (r :: run), rest. rewrite Hp. repeat split; [discriminate|exact Hrun].
Qed.

Lemma match_alt_Some s g n :
  match_alt s = Some (g, n) ->
  exists alt payload rest,
    s = alt ++ js "](data:image/" ++ payload ++ rparen :: rest /\
    Forall (fun c => is_line_terminator c = false) alt /\
    g = js "data:image/" ++ payload /\
    n = length alt + (13 + length payload + 1) /\
    payload <> [] /\ Forall (fun c => c <> rparen) payload.
Proof.
  assert (Htarget : forall t, match_target t = Some (g, n) ->
            exists alt payload rest,
              t = alt ++ js "](data:image/" ++ payload ++ rparen :: rest /\
              Forall (fun c => is_line_terminator c = false) alt /\
              g = js "data:image/" ++ payload /\
              n = length alt + (13 + length payload + 1) /\
              payload <> [] /\ Forall (fun c => c <> rparen) payload).
  { intros t Ht.
    apply match_target_Some in Ht as (payload & rest & -> & -> & -> & Hne & Hp).
    exists [], payload, rest. repeat split; [constructor|exact Hne|exact Hp]. }
  revert g n Htarget. induction s as [|c s IH]; intros g n Htarget; cbn [match_alt].
  - destruct (match_target []) as [[g' n']|] eqn:Ht; [|discriminate].
    intros [= <- <-]. exact (Htarget _ Ht).
  - destruct (match_target (c :: s)) as [[g' n']|] eqn:Ht.
    + intros [= <- <-]. exact (Htarget _ Ht).
    + destruct (is_line_terminator c) eqn:Hc; [discriminate|].
      destruct (match_alt s) as [[g' n']|] eqn:Ha; [|discriminate].
      intros [= <- <-].
      destruct (IH g' n') as (alt & payload & rest & -> & Halt & -> & -> & Hne & Hp).
      { intros t Ht'.
        apply match_target_Some in Ht' as (payload & rest & -> & -> & -> & Hne & Hp).
        exists [], payload, rest. repeat split; [constructor|exact Hne|exact Hp]. }
      { reflexivity. }
      exists (c :: alt), payload, rest.
      repeat split; [constructor; assumption|exact Hne|exact Hp].
Qed.

Lemma match_at_Some s g n :
  match_at s = Some (g, n) ->
  exists alt payload rest,
    s = image_reference alt payload ++ rest /\
    n = length (image_reference alt payload) /\
    g = js "data:image/" ++ payload /\
    Forall (fun c => is_line_terminator c = false) alt /\
    payload <> [] /\ Forall (fun c => c <> rparen) payload.
Proof.
  unfold match_at.
  destruct (strip_prefix _ s) as [s1|] eqn:Hp; [|discriminate].
  destruct (match_alt s1) as [[g' n']|] eqn:Ha; [|discriminate].
  intros [= <- <-]. apply strip_prefix_Some in Hp.
  apply match_alt_Some in Ha as (alt & payload & rest & -> & Halt & -> & -> & Hne & Hpl).
  exists alt, payload, rest. unfold image_reference.
  split.
  { rewrite Hp, <- !app_assoc. cbn [app]. reflexivity. }
  split.
  { rewrite !length_app. change (length (js "![")) with 2.
    change (length (js "](data:image/")) with 13. cbn [length]. lia. }
  repeat split; assumption.
Qed.

Lemma search_Some s i idx g e :
  search s i = Some (idx, g, e) ->
  exists text alt payload rest,
    s = text ++ image_reference alt payload ++ rest /\
    idx = i + length text /\
    e = idx + length (image_reference alt payload) /\
    g = js "data:image/" ++ payload /\
    Forall (fun c => is_line_terminator c = false) alt /\
    payload <> [] /\ Forall (fun c => c <> rparen) payload.
Proof.
  assert (Hat : forall t j g' n, match_at t = Some (g', n) ->
            Some (j, g', j + n) = Some (idx, g, e) ->
            exists text alt payload rest,
              t = text ++ image_reference alt payload ++ rest /\
              idx = j + length text /\
              e = idx + length (image_reference alt payload) /\
              g = js "data:image/" ++ payload /\
              Forall (fun c => is_line_terminator c = false) alt /\
              payload <> [] /\ Forall (fun c => c <> rparen) payload).
  { intros t j g' n Hm [= <- <- <-].
    apply match_at_Some in Hm as (alt & payload & rest & -> & -> & -> & H).
    exists [], alt, payload, rest. cbn [app length].
    repeat split; try apply H; lia. }
  revert i. induction s as [|c s IH]; intros i; cbn [search].
  - destruct (match_at []) as [[g' n']|] eqn:Hm; [|discriminate].
    apply (Hat _ _ _ _ Hm).
  - destruct (match_at (c :: s)) as [[g' n']|] eqn:Hm; [apply (Hat _ _ _ _ Hm)|].
    intros H. apply IH in H as (text & alt & payload & rest & -> & -> & -> & H).
    exists (c :: text), alt, payload, rest. cbn [app length].
    repeat split; try apply H; lia.
Qed.

Lemma image_reference_length alt payload : 2 <= length (image_reference alt payload).
Proof.
  unfold image_reference. rewrite length_app. change (length (js "![")) with 2. lia.
Qed.

Lemma search_bounds s i idx g e :
  search s i = Some (idx, g, e) -> i <= idx /\ idx < e /\ e <= i + length s.
Proof.
  intros H. apply search_Some in H as (text & alt & payload & rest & -> & -> & -> & _).
  pose proof (image_reference_length alt payload).
  rewrite !length_app. lia.
Qed.

Lemma search_shift s i :
  search s i =
  match search s 0 with
  | Some (idx, g, e) => Some (i + idx, g, i + e)
  | None => None
  end.
Proof.
  revert i. induction s as [|c s IH]; intros i; cbn [search].
  - destruct (match_at []) as [[g n]|]; [|reflexivity].
    rewrite Nat.add_0_r. reflexivity.
  - destruct (match_at (c :: s)) as [[g n]|].
    + rewrite Nat.add_0_r. reflexivity.
    + rewrite (IH (S i)), (IH 1).
      destruct (search s 0) as [[[idx g] e]|]; [|reflexivity].
      replace (S i + idx) with (i + (1 + idx)) by lia.
      replace (S i + e) with (i + (1 + e)) by lia. reflexivity.
Qed.

(** *** The loop restarts on the rest of the input *)

Lemma regex_exec_drop result k :
  regex_exec result k =
  match regex_exec (drop k result) 0 with
  | Some (idx, g, e) => Some (k + idx, g, k + e)
  | None => None
  end.
Proof. unfold regex_exec. rewrite drop_0. apply search_shift. Qed.

Lemma push_match_drop result k idx g parts :
  push_match result k (k + idx) g parts
  = parts ++ push_match (drop k result) 0 idx g [].
Proof.
  unfold push_match, slice.
  replace (Nat.ltb k (k + idx)) with (Nat.ltb 0 idx)
    by (destruct (Nat.ltb_spec 0 idx), (Nat.ltb_spec k (k + idx)); lia || reflexivity).
  replace (k + idx - k) with idx by lia. rewrite Nat.sub_0_r, drop_0.
  destruct (Nat.ltb 0 idx), g; cbn [app]; rewrite <- ?app_assoc, ?app_nil_r;
    reflexivity.
Qed.

Lemma loop_drop n : forall result k parts,
  length result - k <= n ->
  loop result k parts =
  ((k + (loop (drop k result) 0 []).1)%nat, parts ++ (loop (drop k result) 0 []).2).
Proof.
  induction n as [n IH] using lt_wf_ind. intros result k parts Hn.
  rewrite (loop_unfold result k), (loop_unfold (drop k result) 0), regex_exec_drop.
  destruct (regex_exec (drop k result) 0) as [[[idx g] e]|] eqn:Hm.
  - pose proof (search_bounds _ _ _ _ _ Hm) as (_ & Hlt & Hle).
    rewrite drop_0, length_drop in Hle.
    rewrite (IH (length result - (k + e))) with (k := (k + e)%nat); [|lia|lia].
    rewrite (IH (length (drop k result) - e)) with (result := drop k result) (k := e);
      [|rewrite length_drop; lia|lia].
    rewrite drop_drop, push_match_drop. cbn [fst snd].
    rewrite <- app_assoc, Nat.add_assoc. reflexivity.
  - cbn [fst snd]. rewrite Nat.add_0_r, app_nil_r. reflexivity.
Qed.

(** [extractPartsFromResult] by recursion on the input: what the first
    match pushes, then the parts of the rest of the input. *)
Lemma extractParts_rec result :
  extractPartsFromResult result =
  match regex_exec result 0 with
  | Some (idx, g, e) =>
      push_match result 0 idx g [] ++ extractPartsFromResult (drop e result)
  | None => match result with [] => [] | _ :: _ => [TextPart result] end
  end.
Proof.
  unfold extractPartsFromResult at 1. rewrite loop_unfold.
  destruct (regex_exec result 0) as [[[idx g] e]|] eqn:Hm.
  - pose proof (search_bounds _ _ _ _ _ Hm) as (_ & Hlt & Hle).
    rewrite drop_0 in Hle. cbn [Nat.add] in Hle.
    rewrite (loop_drop (length result - e)) by lia.
    unfold extractPartsFromResult.
    destruct (loop (drop e result) 0 []) as [k ps]. cbn [fst snd].
    rewrite length_drop, drop_drop.
    destruct (Nat.ltb_spec (e + k) (length result)),
      (Nat.ltb_spec k (length result - e)); try lia.
    + rewrite app_assoc. reflexivity.
    + reflexivity.
  - destruct result; reflexivity.
Qed.

Lemma extractParts_ind (P : jsstring -> list ExtractedPart -> Prop) :
  P [] [] ->
  (forall result,
      result <> [] -> regex_exec result 0 = None -> P result [TextPart result]) ->
  (forall result idx g e,
      regex_exec result 0 = Some (idx, g, e) ->
      P (drop e result) (extractPartsFromResult (drop e result)) ->
      P result (push_match result 0 idx g [] ++ extractPartsFromResult (drop e result))) ->
  forall result, P result (extractPartsFromResult result).
Proof.
  intros Hnil Hplain Hstep result.
  remember (length result) as n eqn:Hn. revert result Hn.
  induction n as [n IH] using lt_wf_ind. intros result ->.
  rewrite extractParts_rec.
  destruct (regex_exec result 0) as [[[idx g] e]|] eqn:Hm.
  - apply (Hstep _ _ _ _ Hm).
    pose proof (search_bounds _ _ _ _ _ Hm) as (_ & Hlt & Hle).
    apply (IH (length (drop e result))); [|reflexivity].
    rewrite length_drop. rewrite drop_0 in Hle. lia.
  - destruct result as [|c result]; [exact Hnil|].
    apply Hplain; [discriminate|exact Hm].
Qed.

Lemma regex_exec_0 result : regex_exec result 0 = search result 0.
Proof. unfold regex_exec. rewrite drop_0. reflexivity. Qed.

(** The first match splits the input into the text before it, the
    image reference and the rest. *)
Lemma first_match result idx g e :
  regex_exec result 0 = Some (idx, g, e) ->
  exists text alt payload,
    result = text ++ image_reference alt payload ++ drop e result /\
    push_match result 0 idx g []
    = match text with [] => [] | _ :: _ => [TextPart text] end
      ++ [ImagePart (js "data:image/" ++ payload)] /\
    idx = length text /\
    g = js "data:image/" ++ payload /\
    Forall (fun c => is_line_terminator c = false) alt /\
    payload <> [] /\ Forall (fun c => c <> rparen) payload.
Proof.
  rewrite regex_exec_0. intros H.
  apply search_Some in H as (text & alt & payload & rest & -> & -> & -> & -> & H).
  exists text, alt, payload. cbn [Nat.add].
  split.
  { rewrite app_assoc, <- length_app, drop_app_length, <- app_assoc. reflexivity. }
  split; [|repeat split; apply H].
  unfold push_match, slice. rewrite drop_0, Nat.sub_0_r, take_app_length.
  change (js "data:image/" ++ payload)
    with (100%N :: (js "ata:image/" ++ payload)).
  destruct text; reflexivity.
Qed.

(** *** Text between matches holds no match *)

Lemma match_target_app s u g n :
  match_target s = Some (g, n) -> match_target (s ++ u) = Some (g, n).
Proof.
  intros H. apply match_target_Some in H as (payload & rest & -> & -> & -> & Hne & Hp).
  rewrite <- !app_assoc. cbn [app].
  apply match_target_reference; assumption.
Qed.

Lemma match_alt_app s u :
  match_alt s <> None -> match_alt (s ++ u) <> None.
Proof.
  induction s as [|c s IH]; cbn [match_alt app].
  - intros H. exfalso. apply H. reflexivity.
  - destruct (match_target (c :: s)) as [[g n]|] eqn:Ht.
    + intros _. change (c :: s ++ u) with ((c :: s) ++ u).
      rewrite (match_target_app _ u _ _ Ht). discriminate.
    + destruct (is_line_terminator c); [congruence|].
      destruct (match_alt s) as [[g n]|]; [|congruence].
      intros _. destruct (match_target (c :: s ++ u)) as [[g' n']|]; [discriminate|].
      destruct (match_alt (s ++ u)) as [[g' n']|]; [discriminate|].
      exfalso. apply IH; [discriminate|reflexivity].
Qed.

Lemma match_at_app s u : match_at s <> None -> match_at (s ++ u) <> None.
Proof.
  unfold match_at.
  destruct (strip_prefix _ s) as [s1|] eqn:Hp; [|congruence].
  apply strip_prefix_Some in Hp as ->. rewrite <- app_assoc, strip_prefix_app.
  intros H. pose proof (match_alt_app s1 u) as Ha.
  destruct (match_alt s1) as [[g n]|]; [|congruence].
  destruct (match_alt (s1 ++ u)) as [[g' n']|]; [discriminate|].
  exfalso. apply Ha; [discriminate|reflexivity].
Qed.

Lemma search_None_iff s i : search s i = None <-> search s 0 = None.
Proof.
  rewrite (search_shift s i).
  destruct (search s 0) as [[[idx g] e]|]; split; congruence.
Qed.

Lemma search_prefix_None text u idx g e :
  search (text ++ u) 0 = Some (idx, g, e) -> length text <= idx ->
  search text 0 = None.
Proof.
  revert idx g e.
  induction text as [|c text IH]; intros idx g e; cbn [app search length].
  - intros _ _. reflexivity.
  - pose proof (match_at_app (c :: text) u) as Happ.
    change ((c :: text) ++ u) with (c :: text ++ u) in Happ.
    destruct (match_at (c :: text ++ u)) as [[g' n']|].
    + intros [= <- _ _] Hle. lia.
    + destruct (match_at (c :: text)) as [[g' n']|];
        [exfalso; apply Happ; [discriminate|reflexivity]|].
      rewrite (search_shift (text ++ u) 1).
      destruct (search (text ++ u) 0) as [[[idx' g'] e']|] eqn:Hs; [|discriminate].
      intros [= <- _ _] Hle. apply search_None_iff.
      apply (IH idx' g' e' eq_refl). lia.
Qed.

(** X25: nothing of the input is lost or invented.  The input is, in
    order, the contents of the text parts and, for every image part,
    an image reference [![alt](data)] with the data of the part and an
    alt text on one line; every text part is non-empty and every
    image's data is [data:image/] followed by a non-empty payload
    without a closing parenthesis. *)
Theorem extractParts_covers result :
  covers (extractPartsFromResult result) result.
Proof.
  apply (extractParts_ind (fun result parts => covers parts result)).
  - constructor.
  - intros r Hne _. rewrite <- (app_nil_r r) at 2.
    apply covers_text; [exact Hne|constructor].
  - intros r idx g e Hm IH.
    destruct (first_match _ _ _ _ Hm)
      as (text & alt & payload & Hr & -> & _ & _ & Halt & Hne & Hp).
    rewrite Hr at 2. rewrite <- app_assoc. cbn [app].
    destruct text as [|c text]; cbn [app].
    + apply covers_image; assumption.
    + apply (covers_text (c :: text)); [discriminate|].
      apply covers_image; assumption.
Qed.

(** X26: text parts are maximal.  No text part follows a text part,
    and every text part holds no image reference, so that extracting
    from it again gives it back unchanged. *)
Theorem extractParts_text_parts result :
  no_adjacent_text (extractPartsFromResult result) = true /\
  Forall (fun part =>
            match part with
            | TextPart content =>
                content <> [] /\ no_image_reference content /\
                extractPartsFromResult content = [TextPart content]
            | ImagePart _ => True
            end) (extractPartsFromResult result).
Proof.
  apply (extractParts_ind
           (fun _ parts =>
              no_adjacent_text parts = true /\
              Forall (fun part =>
                        match part with
                        | TextPart content =>
                            content <> [] /\ no_image_reference content /\
                            extractPartsFromResult content = [TextPart content]
                        | ImagePart _ => True
                        end) parts)).
  - split; [reflexivity|constructor].
  - intros r Hne Hno. split; [reflexivity|].
    constructor; [|constructor].
    split; [exact Hne|]. split; [exact Hno|]. apply extractParts_plain; assumption.
  - intros r idx g e Hm [IHadj IHall].
    destruct (first_match _ _ _ _ Hm) as (text & alt & payload & Hr & -> & -> & _).
    rewrite <- app_assoc. cbn [app].
    destruct text as [|c text]; cbn [app].
    + split; [exact IHadj|]. constructor; [exact I|exact IHall].
    + split; [exact IHadj|].
      constructor; [|constructor; [exact I|exact IHall]].
      assert (Hno : no_image_reference (c :: text)).
      { unfold no_image_reference. rewrite regex_exec_0.
        rewrite regex_exec_0, Hr in Hm.
        apply (search_prefix_None _ _ _ _ _ Hm). lia. }
      split; [discriminate|]. split; [exact Hno|].
      apply extractParts_plain; [discriminate|exact Hno].
Qed.

(** *** A reference after text without exclamation marks *)

Lemma match_at_not_bang c s : c <> 33%N -> match_at (c :: s) = None.
Proof.
  intros Hc. unfold match_at. change (js "![") with [33%N; 91%N].
  cbn [strip_prefix]. destruct (N.eqb_spec 33 c) as [E|_]; [congruence|reflexivity].
Qed.

Lemma search_skip text s i :
  Forall (fun c => c <> 33%N) text ->
  search (text ++ s) i = search s (i + length text).
Proof.
  intros H. revert i. induction H as [|c text Hc _ IH]; intros i; cbn [app length].
  - rewrite Nat.add_0_r. reflexivity.
  - cbn [search]. rewrite (match_at_not_bang _ _ Hc), IH. f_equal. lia.
Qed.

Lemma match_at_reference alt payload rest :
  Forall (fun c => c <> 93%N /\ is_line_terminator c = false) alt ->
  payload <> [] ->
  Forall (fun c => c <> rparen) payload ->
  match_at (image_reference alt payload ++ rest)
  = Some (js "data:image/" ++ payload, length (image_reference alt payload)).
Proof.
  intros Halt Hne Hp. unfold match_at, image_reference.
  rewrite <- !app_assoc, strip_prefix_app. cbn [app].
  rewrite (match_alt_reference alt _ _ _ Halt
             (match_target_reference payload rest Hne Hp)).
  f_equal. f_equal. rewrite !length_app.
  change (length (js "![")) with 2. change (length (js "](data:image/")) with 13.
  cbn [length]. lia.
Qed.

(** X27: one reference at a time.  For a text without exclamation
    mark, followed by an image reference whose alt text has no closing
    bracket and no line terminator and whose payload is non-empty and
    has no closing parenthesis, followed by anything: the parts are the
    text (when it is not empty), the image, and the parts of what
    follows, extracted on its own. *)
Theorem extractParts_reference_first text alt payload rest :
  Forall (fun c => c <> 33%N) text ->
  Forall (fun c => c <> 93%N /\ is_line_terminator c = false) alt ->
  payload <> [] ->
  Forall (fun c => c <> rparen) payload ->
  extractPartsFromResult (text ++ image_reference alt payload ++ rest)
  = match text with [] => [] | _ :: _ => [TextPart text] end
    ++ ImagePart (js "data:image/" ++ payload) :: extractPartsFromResult rest.
Proof.
  intros Htext Halt Hne Hp.
  assert (Hm : regex_exec (text ++ image_reference alt payload ++ rest) 0
               = Some (length text, js "data:image/" ++ payload,
                       length text + length (image_reference alt payload))).
  { rewrite regex_exec_0, (search_skip _ _ _ Htext). cbn [Nat.add].
    apply search_head, match_at_reference; assumption. }
  rewrite extractParts_rec, Hm.
  assert (Hdrop : drop (length text + length (image_reference alt payload))
                    (text ++ image_reference alt payload ++ rest) = rest).
  { rewrite app_assoc, <- length_app. apply drop_app_length. }
  rewrite Hdrop.
  unfold push_match, slice. rewrite drop_0, Nat.sub_0_r, take_app_length.
  change (js "data:image/" ++ payload)
    with (100%N :: (js "ata:image/" ++ payload)).
  destruct text; reflexivity.
Qed.

Lemma extractParts_reference_first_witness :
  extractPartsFromResult
    (js "Figure 1: " ++ image_reference (js "plot") (js "png;base64,AAAA")
       ++ js " (left)")
  = [TextPart (js "Figure 1: "); ImagePart (js "data:image/png;base64,AAAA");
     TextPart (js " (left)")].
Proof.
  rewrite (extractParts_reference_first (js "Figure 1: ") (js "plot")
             (js "png;base64,AAAA") (js " (left)")).
  - vm_compute. reflexivity.
  - repeat constructor; discriminate.
  - repeat constructor; discriminate.
  - discriminate.
  - repeat constructor; discriminate.
Defined.
End ExtractPartsMoreFacts.
